(** * Token state tracker and market-cap monitor

    A shallow embedding of [bot.py]: the token classifier, the loaders of
    the two JSON files, the market-cap fetcher with its pair selection,
    the entry lifecycle (creation by the message handler, update by the
    monitor loop) and the lock discipline of both paths.

    Modelling conventions.
    - Python values that travel through JSON are the type [value]; a
      [dict] is an association list in insertion order.
    - Python numbers are exact rationals ([Q]): the rounding of binary64
      arithmetic, infinities, NaN and the sign of zero are outside the
      model.  [int] and [float] are not told apart, a [bool] counts as 1
      or 0 in arithmetic as in Python.
    - Strings are byte strings (UTF-8).  The regular expressions only
      match ASCII characters; a byte above 127 next to a match is taken
      as a non-word character when [\b] is tested.
    - Exceptions are explicit: pure code returns [result], stateful code
      runs in [M], a state monad over [world] whose state survives a
      raise, as the heap of the Python process does.
    - A file is known up to what [json.loads] makes of its text. *)

From Stdlib Require Import List String Ascii ZArith QArith Qabs Bool Lia Lqa.
From Stdlib Require Import DecimalString.
From Stdlib Require DecimalN.
Import ListNotations.

Set Warnings "-register-all".

Local Open Scope string_scope.
Local Open Scope list_scope.

(** ** Exceptions and results *)

Inductive exn : Type :=
| AttributeError
| TypeError
| ValueError
| KeyError
| URLError          (* urllib.error.URLError: connection refused, DNS, ... *)
| TimeoutError      (* the 15 second timeout of urlopen *)
| JSONDecodeError.  (* the body is not JSON *)

Inductive result (A : Type) : Type :=
| Ok (a : A)
| Raise (e : exn).
Arguments Ok {A} a.
Arguments Raise {A} e.

Definition rbind {A B} (m : result A) (k : A -> result B) : result B :=
  match m with
  | Ok a => k a
  | Raise e => Raise e
  end.

Declare Scope result_scope.
Delimit Scope result_scope with res.
Notation "x <- m ;; k" := (rbind m (fun x => k))
  (at level 61, m at next level, right associativity) : result_scope.

(** [try: body / except Exception: handler]. *)
Definition try_except {A} (body : result A) (handler : exn -> result A) : result A :=
  match body with
  | Ok a => Ok a
  | Raise e => handler e
  end.

(** ** Python values *)

Inductive value : Type :=
| VNone
| VBool (b : bool)
| VNum (q : Q)
| VStr (s : string)
| VList (l : list value)
| VDict (d : list (string * value)).

Definition dict : Type := list (string * value).

(** Truth value of an object: [bool(v)]. *)
Definition truthy (v : value) : bool :=
  match v with
  | VNone => false
  | VBool b => b
  | VNum q => negb (Qeq_bool q 0)
  | VStr s => negb (String.eqb s "")
  | VList l => match l with [] => false | _ => true end
  | VDict d => match d with [] => false | _ => true end
  end.

(** [a or b]. *)
Definition py_or (a b : value) : value := if truthy a then a else b.

Definition is_none (v : value) : bool :=
  match v with VNone => true | _ => false end.

(** [v == s] for a [str] [s]. *)
Definition eq_str (v : value) (s : string) : bool :=
  match v with VStr s' => String.eqb s' s | _ => false end.

(** *** Dictionaries *)

Fixpoint dict_get (k : string) (d : dict) : option value :=
  match d with
  | [] => None
  | (k', v) :: d' => if String.eqb k' k then Some v else dict_get k d'
  end.

(** [k in d]. *)
Definition dict_has (k : string) (d : dict) : bool :=
  match dict_get k d with Some _ => true | None => false end.

(** [d[k] = v]: an existing key keeps its place, a new one goes last. *)
Fixpoint dict_set (k : string) (v : value) (d : dict) : dict :=
  match d with
  | [] => [(k, v)]
  | (k', v') :: d' =>
      if String.eqb k' k then (k, v) :: d' else (k', v') :: dict_set k v d'
  end.

(** [d.pop(k, None)], the popped value dropped. *)
Fixpoint dict_pop (k : string) (d : dict) : dict :=
  match d with
  | [] => []
  | (k', v') :: d' =>
      if String.eqb k' k then d' else (k', v') :: dict_pop k d'
  end.

(** [list(d.values())]. *)
Definition dict_values (d : dict) : list value := map snd d.

(** [d.get(k, default)]. *)
Definition dict_get_default (k : string) (default : value) (d : dict) : value :=
  match dict_get k d with Some v => v | None => default end.

(** [v.get(k, default)] for an arbitrary object [v]: only a dict has [get]. *)
Definition py_get (v : value) (k : string) (default : value) : result value :=
  match v with
  | VDict d => Ok (dict_get_default k default d)
  | _ => Raise AttributeError
  end.

(** [isinstance(v, dict)]. *)
Definition is_dict (v : value) : bool :=
  match v with VDict _ => true | _ => false end.

(** *** [json.dumps(v, sort_keys=True)] followed by [json.loads]

    The text on disk lists the keys of every object in sorted order, so
    this is the value a later load gives back. *)

Fixpoint insert_by_key (kv : string * value) (d : dict) : dict :=
  match d with
  | [] => [kv]
  | kv' :: d' =>
      if String.leb (fst kv) (fst kv') then kv :: kv' :: d'
      else kv' :: insert_by_key kv d'
  end.

Definition sort_dict (d : dict) : dict := fold_right insert_by_key [] d.

Fixpoint sort_keys (v : value) : value :=
  match v with
  | VList l => VList (map sort_keys l)
  | VDict d => VDict (sort_dict (map (fun kv => (fst kv, sort_keys (snd kv))) d))
  | _ => v
  end.

(** ** Numbers *)

Definition Qltb (x y : Q) : bool := negb (Qle_bool y x).

(** [float(s)] for a [str]: [None] is [ValueError], which the empty
    string gets.  The other uses of [float] are settled by the
    constructor of the value. *)
Class FloatOfStr : Type := {
  float_of_str : string -> option Q;
  float_of_str_empty : float_of_str "" = None
}.

(** Operand of [-], [>] and the like next to a float: a number or a bool. *)
Definition as_number (v : value) : result Q :=
  match v with
  | VNum q => Ok q
  | VBool b => Ok (if b then 1%Q else 0%Q)
  | _ => Raise TypeError
  end.

(** Rounding to the nearest integer, ties to even. *)
Definition round_half_even (q : Q) : Z :=
  let n := Qnum q in
  let d := Z.pos (Qden q) in
  let fl := (n / d)%Z in
  match (2 * (n mod d) ?= d)%Z with
  | Lt => fl
  | Gt => (fl + 1)%Z
  | Eq => if Z.even fl then fl else (fl + 1)%Z
  end.

(** [round(q, ndigits)] on a float. *)
Definition py_round (q : Q) (ndigits : nat) : Q :=
  let scale := (10 ^ Z.of_nat ndigits)%Z in
  Qmake (round_half_even (q * inject_Z scale)) (Z.to_pos scale).

Definition decimal (n : Z) : string :=
  NilZero.string_of_uint (N.to_uint (Z.to_N n)).

Definition two_digits (n : Z) : string :=
  if (n <? 10)%Z then "0" ++ decimal n else decimal n.

(** [f"{value:+.2f}%"]. *)
Definition _format_percent (value : Q) : string :=
  let k := round_half_even (Qabs value * 100) in
  (if Qltb value 0 then "-" else "+")
    ++ decimal (k / 100) ++ "." ++ two_digits (k mod 100) ++ "%".

(** A [float_of_str] for plain decimal literals: optional sign, digits
    with an optional fraction, optional exponent, blanks around.  It is
    the instance the closed examples run with; the general statements
    hold for every [FloatOfStr]. *)

Definition is_digit (c : ascii) : bool :=
  (48 <=? N_of_ascii c)%N && (N_of_ascii c <=? 57)%N.

Definition digit_value (c : ascii) : Z := Z.of_N (N_of_ascii c) - 48.

Definition is_blank (c : ascii) : bool :=
  let n := N_of_ascii c in
  (n =? 32)%N || ((9 <=? n)%N && (n <=? 13)%N).

Fixpoint drop_while {A} (p : A -> bool) (l : list A) : list A :=
  match l with
  | [] => []
  | x :: l' => if p x then drop_while p l' else l
  end.

Fixpoint take_while {A} (p : A -> bool) (l : list A) : list A :=
  match l with
  | [] => []
  | x :: l' => if p x then x :: take_while p l' else []
  end.

Definition digits_value (ds : list ascii) : Z :=
  fold_left (fun acc c => acc * 10 + digit_value c)%Z ds 0%Z.

Definition split_sign (l : list ascii) : bool * list ascii :=
  match l with
  | "-"%char :: l' => (true, l')
  | "+"%char :: l' => (false, l')
  | _ => (false, l)
  end.

Definition parse_exponent (l : list ascii) : option Z :=
  match l with
  | [] => Some 0%Z
  | c :: l' =>
      if (Ascii.eqb c "e" || Ascii.eqb c "E") then
        let '(neg, ds) := split_sign l' in
        match ds with
        | [] => None
        | _ => if forallb is_digit ds
               then Some (if neg then - digits_value ds else digits_value ds)%Z
               else None
        end
      else None
  end.

Definition scale10 (q : Q) (e : Z) : Q :=
  if (0 <=? e)%Z then q * inject_Z (10 ^ e)
  else q / inject_Z (10 ^ (- e)).

Definition decimal_float_of_str (s : string) : option Q :=
  let l := drop_while is_blank (list_ascii_of_string s) in
  let l := rev (drop_while is_blank (rev l)) in
  let '(neg, l) := split_sign l in
  let ip := take_while is_digit l in
  let l := drop_while is_digit l in
  let '(fp, l) :=
    match l with
    | "."%char :: l' => (take_while is_digit l', drop_while is_digit l')
    | _ => ([], l)
    end in
  match ip ++ fp with
  | [] => None
  | ds =>
      match parse_exponent l with
      | None => None
      | Some e =>
          let m := inject_Z (digits_value ds) in
          let q := scale10 m (e - Z.of_nat (List.length fp)) in
          Some (if neg then - q else q)%Q
      end
  end.

#[global] Instance decimal_FloatOfStr : FloatOfStr :=
  {| float_of_str := decimal_float_of_str; float_of_str_empty := eq_refl |}.

(** ** Token classifier (lines 18-21 and 295-298) *)

Definition in_range (lo hi c : ascii) : bool :=
  (N_of_ascii lo <=? N_of_ascii c)%N && (N_of_ascii c <=? N_of_ascii hi)%N.

(** [[a-fA-F0-9]] *)
Definition is_hex (c : ascii) : bool :=
  in_range "a" "f" c || in_range "A" "F" c || in_range "0" "9" c.

(** [[A-Za-z0-9]] *)
Definition is_alnum (c : ascii) : bool :=
  in_range "A" "Z" c || in_range "a" "z" c || in_range "0" "9" c.

(** [[1-9A-HJ-NP-Za-km-z]] *)
Definition is_base58 (c : ascii) : bool :=
  in_range "1" "9" c || in_range "A" "H" c || in_range "J" "N" c
  || in_range "P" "Z" c || in_range "a" "k" c || in_range "m" "z" c.

(** [\w] on ASCII. *)
Definition is_word (c : ascii) : bool := is_alnum c || Ascii.eqb c "_".

(** [\b] between two neighbouring positions; [None] is an end of the text. *)
Definition word_boundary (before after : option ascii) : bool :=
  xorb (match before with Some c => is_word c | None => false end)
       (match after with Some c => is_word c | None => false end).

(** The longest prefix of at most [n] characters that satisfy [p]: a
    greedy bounded repetition. *)
Fixpoint take_upto (p : ascii -> bool) (n : nat) (s : list ascii) : list ascii :=
  match n, s with
  | S n', c :: s' => if p c then c :: take_upto p n' s' else []
  | _, _ => []
  end.

(** [0x[a-fA-F0-9]{40}] anchored at the head of [s]. *)
Definition match_address (s : list ascii) : option (list ascii) :=
  match s with
  | "0"%char :: "x"%char :: rest =>
      let body := take_upto is_hex 40 rest in
      if (List.length body =? 40)%nat then Some ("0"%char :: "x"%char :: body)
      else None
  | _ => None
  end.

(** [\$[A-Za-z0-9]{2,10}] anchored at the head of [s]. *)
Definition match_ticker (s : list ascii) : option (list ascii) :=
  match s with
  | "$"%char :: rest =>
      let body := take_upto is_alnum 10 rest in
      if (2 <=? List.length body)%nat then Some ("$"%char :: body) else None
  | _ => None
  end.

(** [\b[1-9A-HJ-NP-Za-km-z]{32,50}\b] anchored at the head of [s], the
    character before it being [prev].  The repetition is greedy and
    gives characters back until the closing [\b] holds. *)
Definition match_base58 (prev : option ascii) (s : list ascii) : option (list ascii) :=
  if word_boundary prev (hd_error s) then
    let run := List.length (take_upto is_base58 50 s) in
    let ends_word k := word_boundary (nth_error s (k - 1)) (nth_error s k) in
    match find ends_word (rev (seq 32 (run - 31))) with
    | Some k => Some (firstn k s)
    | None => None
    end
  else None.

(** [pattern.findall(text)]: leftmost matches, none overlapping.  [skip]
    counts the characters of the last match still to be passed. *)
Fixpoint findall (try_match : option ascii -> list ascii -> option (list ascii))
    (prev : option ascii) (skip : nat) (s : list ascii) : list string :=
  match s with
  | [] => []
  | c :: rest =>
      match skip with
      | S k => findall try_match (Some c) k rest
      | O =>
          match try_match prev s with
          | Some m =>
              string_of_list_ascii m
                :: findall try_match (Some c) (List.length m - 1) rest
          | None => findall try_match (Some c) 0 rest
          end
      end
  end.

Definition ADDRESS_REGEX_findall (text : string) : list string :=
  findall (fun _ => match_address) None 0 (list_ascii_of_string text).

Definition TICKER_REGEX_findall (text : string) : list string :=
  findall (fun _ => match_ticker) None 0 (list_ascii_of_string text).

Definition BASE58_MINT_REGEX_findall (text : string) : list string :=
  findall match_base58 None 0 (list_ascii_of_string text).

(** [t[1:]] *)
Definition drop_first (t : string) : string :=
  match t with
  | EmptyString => EmptyString
  | String _ t' => t'
  end.

(** Lines 295-298 of the handler: the candidates of a message. *)
Definition extract_tokens (message : string) : list string :=
  let addresses := ADDRESS_REGEX_findall message in
  let tickers := map drop_first (TICKER_REGEX_findall message) in
  let base58_mints := BASE58_MINT_REGEX_findall message in
  addresses ++ tickers ++ base58_mints.

(** ** The two JSON files (lines 32-75) *)

(** What a path holds, up to [json.loads]. *)
Inductive file : Type :=
| Missing                 (* path.exists() is false *)
| Unparsable              (* read_text or json.loads raises *)
| Parsed (data : value).  (* json.loads returns data *)

(** [json.loads(path.read_text())] on an existing path. *)
Definition read_json (f : file) : result value :=
  match f with
  | Parsed data => Ok data
  | _ => Raise JSONDecodeError
  end.

Definition is_utf8_continuation (c : ascii) : bool :=
  (128 <=? N_of_ascii c)%N && (N_of_ascii c <? 192)%N.

Fixpoint last_char_rev (r : list ascii) : list ascii :=
  match r with
  | [] => []
  | c :: r' => if is_utf8_continuation c then c :: last_char_rev r' else [c]
  end.

(** [v[-1]] *)
Definition subscript_last (v : value) : result value :=
  match v with
  | VList l =>
      match rev l with
      | x :: _ => Ok x
      | [] => Raise KeyError  (* IndexError; not reached, the list is truthy *)
      end
  | VStr s =>
      Ok (VStr (string_of_list_ascii
                  (rev (last_char_rev (rev (list_ascii_of_string s))))))
  | VDict _ => Raise KeyError
  | _ => Raise TypeError
  end.

(** [d.get(key)] for an arbitrary object as key: a list or a dict is not
    hashable, and only a [str] can be a key of a JSON object. *)
Definition dict_get_value (d : dict) (key : value) : result value :=
  match key with
  | VStr k => Ok (dict_get_default k VNone d)
  | VList _ | VDict _ => Raise TypeError
  | _ => Ok VNone
  end.

(** The body of the [try] of [_load_current]; [None] when it falls
    through to the final [return None]. *)
Definition load_current_body (f : file) : result (option value) :=
  (data <- read_json f ;;
   match data with
   | VDict d =>
       match dict_get_default "items" VNone d with
       | VDict items =>
           let tokens := py_or (dict_get_default "tokens" VNone d) (VList []) in
           if truthy tokens then
             last_token <- subscript_last tokens ;;
             r <- dict_get_value items last_token ;;
             Ok (Some r)
           else
             Ok (Some (hd VNone (dict_values items)))
       | _ => if dict_has "token" d then Ok (Some data) else Ok None
       end
   | _ => Ok None
   end)%res.

Definition _load_current (f : file) : result value :=
  match f with
  | Missing => Ok VNone
  | _ =>
      (r <- try_except (load_current_body f) (fun _ => Ok None) ;;
       match r with
       | Some v => Ok v
       | None => Ok VNone
       end)%res
  end.

Definition load_history_body (f : file) : result (option (list value)) :=
  (data <- read_json f ;;
   match data with
   | VList l => Ok (Some l)
   | VDict d =>
       match dict_get_default "items" VNone d with
       | VDict items => Ok (Some (dict_values items))
       | _ => if dict_has "token" d then Ok (Some [data]) else Ok None
       end
   | _ => Ok None
   end)%res.

Definition _load_history (f : file) : result (list value) :=
  match f with
  | Missing => Ok []
  | _ =>
      (r <- try_except (load_history_body f) (fun _ => Ok None) ;;
       match r with
       | Some l => Ok l
       | None => Ok []
       end)%res
  end.

(** What [path.write_text(json.dumps(v, indent=2, sort_keys=True))]
    leaves on disk. *)
Definition written (v : value) : file := Parsed (sort_keys v).

(** ** Pair selection and market cap (lines 90-114) *)

Section Fetcher.
Context {float_str : FloatOfStr}.

(** [float(v)] *)
Definition py_float (v : value) : result Q :=
  match v with
  | VNum q => Ok q
  | VBool b => Ok (if b then 1%Q else 0%Q)
  | VStr s =>
      match float_of_str s with
      | Some q => Ok q
      | None => Raise ValueError
      end
  | _ => Raise TypeError
  end.

(** [for x in v]: the items a loop over [v] visits. *)
Definition py_iter (v : value) : result (list value) :=
  match v with
  | VList l => Ok l
  | VDict d => Ok (map (fun kv => VStr (fst kv)) d)
  | VStr s => Ok (map (fun c => VStr (String c EmptyString)) (list_ascii_of_string s))
  | _ => Raise TypeError
  end.

(** Lines 94-98: the liquidity the loop reads off one pair. *)
Definition liquidity_val (pair : value) : result Q :=
  (liq <- py_get pair "liquidity" (VDict []) ;;
   usd <- py_get liq "usd" VNone ;;
   let liquidity := py_or usd (VNum 0) in
   try_except (py_float liquidity)
     (fun e => match e with
               | TypeError | ValueError => Ok 0%Q
               | _ => Raise e
               end))%res.

(** One turn of the loop of [_pick_best_pair] on the state
    [(best, best_liquidity)]. *)
Definition pick_step (st : value * Q) (pair : value) : result (value * Q) :=
  (l <- liquidity_val pair ;;
   if Qltb (snd st) l then Ok (pair, l) else Ok st)%res.

Fixpoint pick_loop (st : value * Q) (pairs : list value) : result (value * Q) :=
  match pairs with
  | [] => Ok st
  | p :: rest => (st' <- pick_step st p ;; pick_loop st' rest)%res
  end.

Definition _pick_best_pair (pairs : value) : result value :=
  (items <- py_iter (py_or pairs (VList [])) ;;
   st <- pick_loop (VNone, (-1)%Q) items ;;
   Ok (fst st))%res.

Definition _parse_market_cap (pair : value) : result (option Q) :=
  (market_cap <- py_get pair "marketCap" VNone ;;
   market_cap <- (if is_none market_cap then py_get pair "fdv" VNone
                  else Ok market_cap) ;;
   if is_none market_cap then Ok None
   else
     try_except (q <- py_float market_cap ;; Ok (Some q))
       (fun e => match e with
                 | TypeError | ValueError => Ok None
                 | _ => Raise e
                 end))%res.

(** Lines 120-124 and 131-135: what both fetchers make of the document
    the API returned. *)
Definition market_cap_of_document (data : value) : result (option Q * value) :=
  (pairs <- py_get data "pairs" VNone ;;
   let pairs := py_or pairs (VList []) in
   best <- _pick_best_pair pairs ;;
   if negb (truthy best) then Ok (None, VNone)
   else
     mc <- _parse_market_cap best ;;
     url <- py_get best "url" VNone ;;
     Ok (mc, url))%res.

End Fetcher.

(** ** State, effects and the event trace *)

(** One answer of the price API to an HTTP GET. *)
Inductive http_reply : Type :=
| HttpFail (e : exn)       (* urlopen or json.loads raises e *)
| HttpBody (data : value). (* the decoded JSON document *)

(** What an observer of the process sees, oldest first. *)
Inductive event : Type :=
| EvSleep
| EvAcquire
| EvRelease
| EvHttpGet (url : string)
| EvWriteCurrent
| EvWriteHistory
| EvSendMessage
| EvLogException (e : exn).

Record world : Type := mkWorld {
  holder : value;               (* current_holder["entry"] *)
  results_file : file;          (* config.output_json_path *)
  history_file : file;          (* config.history_json_path *)
  network : list http_reply;    (* the API's answers to come, in call order *)
  now : string;                 (* what _utc_now_iso() returns *)
  trace : list event
}.

(** Stateful code over a state [S]: the state survives a raise. *)
Definition St (S A : Type) : Type := S -> result A * S.

Definition M : Type -> Type := St world.

Definition ret {S A} (a : A) : St S A := fun s => (Ok a, s).

Definition bind {S A B} (m : St S A) (k : A -> St S B) : St S B :=
  fun s =>
    match m s with
    | (Ok a, s') => k a s'
    | (Raise e, s') => (Raise e, s')
    end.

Definition lift {S A} (r : result A) : St S A := fun s => (r, s).

Declare Scope st_scope.
Delimit Scope st_scope with st.
Notation "x <- m ;; k" := (bind m (fun x => k))
  (at level 61, m at next level, right associativity) : st_scope.
Notation "m ;;; k" := (bind m (fun _ => k))
  (at level 61, right associativity) : st_scope.

Definition add_event (ev : event) (w : world) : world :=
  mkWorld (holder w) (results_file w) (history_file w) (network w) (now w)
    (trace w ++ [ev]).

Definition emit (ev : event) : M unit := fun w => (Ok tt, add_event ev w).

Definition get_holder : M value := fun w => (Ok (holder w), w).

Definition set_holder (v : value) : M unit := fun w =>
  (Ok tt, mkWorld v (results_file w) (history_file w) (network w) (now w) (trace w)).

Definition _utc_now_iso : M string := fun w => (Ok (now w), w).

(** [async with lock: body]: the lock is released however the body ends. *)
Definition with_lock {A} (body : M A) : M A := fun w =>
  let '(r, w') := body (add_event EvAcquire w) in
  (r, add_event EvRelease w').

(** Code that mutates the dict the holder refers to. *)
Definition with_entry {A} (m : St dict A) : M A := fun w =>
  match holder w with
  | VDict d =>
      let '(r, d') := m d in
      (r, mkWorld (VDict d') (results_file w) (history_file w) (network w)
            (now w) (trace w))
  | _ => (Raise AttributeError, w)
  end.

(** [entry[k] = v] and [entry.get(k, default)] on the dict in hand. *)
Definition entry_set (k : string) (v : value) : St dict unit :=
  fun d => (Ok tt, dict_set k v d).

Definition entry_get (k : string) (default : value) : St dict value :=
  fun d => (Ok (dict_get_default k default d), d).

Definition _save_current (entry : value) : M unit := fun w =>
  (Ok tt,
   add_event EvWriteCurrent
     (mkWorld (holder w) (written entry) (history_file w) (network w) (now w)
        (trace w))).

Definition _append_history (entry : value) : M unit := fun w =>
  match _load_history (history_file w) with
  | Ok history =>
      (Ok tt,
       add_event EvWriteHistory
         (mkWorld (holder w) (results_file w)
            (written (VList (history ++ [entry]))) (network w) (now w)
            (trace w)))
  | Raise e => (Raise e, w)
  end.

(** ** The fetcher (lines 78-87 and 117-141) *)

Definition _http_get_json (url : string) : M value := fun w =>
  let w := add_event (EvHttpGet url) w in
  match network w with
  | [] => (Raise URLError, w)
  | reply :: rest =>
      let w' := mkWorld (holder w) (results_file w) (history_file w) rest
                  (now w) (trace w) in
      match reply with
      | HttpFail e => (Raise e, w')
      | HttpBody data => (Ok data, w')
      end
  end.

Definition hex_char (n : N) : ascii :=
  if (n <? 10)%N then ascii_of_N (48 + n) else ascii_of_N (55 + n).

(** [urllib.parse.quote(s)]: letters, digits and [_.-~/] stay, every
    other byte becomes [%XX]. *)
Definition quote_char (c : ascii) : list ascii :=
  if is_alnum c || existsb (Ascii.eqb c) ["_"; "."; "-"; "~"; "/"]%char
  then [c]
  else ["%"%char; hex_char (N_of_ascii c / 16); hex_char (N_of_ascii c mod 16)].

Definition quote (s : string) : string :=
  string_of_list_ascii (flat_map quote_char (list_ascii_of_string s)).

Section Lifecycle.
Context {float_str : FloatOfStr}.

Definition _fetch_market_cap_for_address (address : string) : M (option Q * value) :=
  (data <- _http_get_json ("https://api.dexscreener.com/latest/dex/tokens/" ++ address) ;;
   lift (market_cap_of_document data))%st.

Definition _fetch_market_cap_for_ticker (ticker : string) : M (option Q * value) :=
  (let query := quote ticker in
   data <- _http_get_json ("https://api.dexscreener.com/latest/dex/search/?q=" ++ query) ;;
   lift (market_cap_of_document data))%st.

(** [token_key.startswith("0x")] needs a [str]. *)
Definition fetch_market_cap (token_key : value) : M (option Q * value) :=
  match token_key with
  | VStr s =>
      if String.prefix "0x" s then _fetch_market_cap_for_address s
      else _fetch_market_cap_for_ticker s
  | _ => lift (Raise AttributeError)
  end.

(** ** Entry lifecycle (lines 144-158 and 181-211) *)

(** The function mutates [entry] and returns nothing; its callers pass a
    dict no one else refers to yet, so the model returns the new dict. *)
Definition _refresh_entry_market_cap (token_key : value) (entry : dict) : M dict :=
  (r <- fetch_market_cap token_key ;;
   match fst r with
   | None => ret entry
   | Some market_cap =>
       let entry := dict_set "initial_market_cap" (VNum market_cap) entry in
       let entry := dict_set "highest_market_cap" (VNum market_cap) entry in
       let entry := dict_set "current_market_cap" (VNum market_cap) entry in
       let entry := dict_set "current_percentage" (VStr (_format_percent 0)) entry in
       let entry := dict_set "highest_percent_increase" (VNum 0) entry in
       let entry := dict_set "reached_50" (VBool false) entry in
       ts <- _utc_now_iso ;;
       let entry := dict_set "last_checked" (VStr ts) entry in
       ret (if truthy (snd r) then dict_set "pair_url" (snd r) entry else entry)
   end)%st.

(** [market_cap > v] for the float [market_cap]. *)
Definition float_gt (market_cap : Q) (v : value) : result bool :=
  (x <- as_number v ;; Ok (Qltb x market_cap))%res.

(** [((x - initial) / initial) * 100 if initial else 0.0] *)
Definition percent_over (x initial : value) : result Q :=
  if truthy initial then
    (a <- as_number x ;;
     i <- as_number initial ;;
     Ok (((a - i) / i) * 100)%Q)%res
  else Ok 0%Q.

(** [max(a, b)] for the float [b]: [a] unless [b > a]. *)
Definition py_max (a : value) (b : Q) : result value :=
  (gt <- float_gt b a ;; Ok (if gt then VNum b else a))%res.

(** Lines 181-211, on the dict [entry] refers to.  [ts] is what
    [_utc_now_iso()] returns on line 209. *)
Definition apply_observation (market_cap : Q) (pair_url : value) (ts : string)
  : St dict unit :=
  (initial_market_cap <- entry_get "initial_market_cap" VNone ;;
   highest_market_cap <-
     entry_get "highest_market_cap" (py_or initial_market_cap (VNum market_cap)) ;;
   initial_market_cap <-
     (if is_none initial_market_cap
      then entry_set "initial_market_cap" (VNum market_cap) ;;; ret (VNum market_cap)
      else ret initial_market_cap) ;;
   higher <- lift (float_gt market_cap highest_market_cap) ;;
   highest_market_cap <-
     (if higher : bool
      then entry_set "highest_market_cap" (VNum market_cap) ;;; ret (VNum market_cap)
      else ret highest_market_cap) ;;
   entry_set "current_market_cap" (VNum market_cap) ;;;
   current_percent <- lift (percent_over (VNum market_cap) initial_market_cap) ;;
   let current_percent := py_round current_percent 4 in
   entry_set "current_percentage" (VStr (_format_percent current_percent)) ;;;
   highest_percent <- lift (percent_over highest_market_cap initial_market_cap) ;;
   let highest_percent := py_round highest_percent 4 in
   previous <- entry_get "highest_percent_increase" (VNum 0) ;;
   best <- lift (py_max previous highest_percent) ;;
   entry_set "highest_percent_increase" best ;;;
   entry_set "reached_50" (VBool (Qle_bool 50 highest_percent)) ;;;
   entry_set "last_checked" (VStr ts) ;;;
   (if truthy pair_url then entry_set "pair_url" pair_url else ret tt))%st.

(** ** Monitor loop (lines 161-212) *)

(** Lines 177-212: the locked update for the token the fetch was made for. *)
Definition monitor_update (token_key : string) (market_cap : Q) (pair_url : value)
  : M unit :=
  with_lock
    (entry <- get_holder ;;
     if negb (truthy entry) then ret tt
     else
       token <- lift (py_get entry "token" VNone) ;;
       if negb (eq_str token token_key) then ret tt
       else
         ts <- _utc_now_iso ;;
         with_entry (apply_observation market_cap pair_url ts) ;;;
         entry <- get_holder ;;
         _save_current entry)%st.

(** One turn of the [while True] loop. *)
Definition monitor_cycle : M unit :=
  (emit EvSleep ;;;
   entry <- with_lock get_holder ;;
   if negb (truthy entry) then ret tt
   else
     token_key <- lift (py_get entry "token" VNone) ;;
     if negb (truthy token_key) then ret tt
     else
       r <- fetch_market_cap token_key ;;
       match fst r, token_key with
       | Some market_cap, VStr key => monitor_update key market_cap (snd r)
       | _, _ => ret tt
       end)%st.

(** How the task stands after some turns. *)
Inductive task_state : Type :=
| Looping              (* still inside [while True] *)
| Ended (e : exn).     (* the coroutine ended with an exception *)

Fixpoint market_cap_monitor (cycles : nat) (w : world) : task_state * world :=
  match cycles with
  | O => (Looping, w)
  | S n =>
      match monitor_cycle w with
      | (Ok _, w') => market_cap_monitor n w'
      | (Raise e, w') => (Ended e, w')
      end
  end.

(** ** Start-up migration of the loaded entry (lines 230-248) *)

Definition migrate_loaded_entry (entry : dict) : M dict :=
  (let entry :=
     if dict_has "initial_price" entry || dict_has "highest_price" entry
     then dict_pop "highest_price" (dict_pop "initial_price" entry)
     else entry in
   let entry :=
     match dict_get "percent_increase" entry with
     | Some raw_value =>
         let entry := dict_pop "percent_increase" entry in
         match raw_value with
         | VNum q => dict_set "current_percentage" (VStr (_format_percent q)) entry
         | VBool b =>
             dict_set "current_percentage"
               (VStr (_format_percent (if b then 1 else 0))) entry
         | _ => dict_set "current_percentage" raw_value entry
         end
     | None => entry
     end in
   let entry :=
     if dict_has "current_percentage" entry then entry
     else dict_set "current_percentage" (VStr (_format_percent 0)) entry in
   entry <-
     (if is_none (dict_get_default "initial_market_cap" VNone entry) then
        match dict_get "token" entry with
        | Some token => _refresh_entry_market_cap token entry
        | None => lift (Raise KeyError)
        end
      else ret entry) ;;
   let entry :=
     if is_none (dict_get_default "highest_percent_increase" VNone entry)
     then dict_set "highest_percent_increase" (VNum 0) entry
     else entry in
   ret entry)%st.

Fixpoint str_contains (needle hay : string) : bool :=
  String.prefix needle hay
  || match hay with
     | EmptyString => false
     | String _ hay' => str_contains needle hay'
     end.

(** The first exception of lines 232-244 when the loaded object is
    truthy and not a dict: [in] fails on a number, [pop] and [get] are
    missing on a [str], [pop] with these arguments and item assignment
    fail on a list. *)
Definition migrate_non_dict_error (v : value) : exn :=
  match v with
  | VStr s =>
      if str_contains "initial_price" s || str_contains "highest_price" s
         || str_contains "percent_increase" s
         || str_contains "current_percentage" s
      then AttributeError else TypeError
  | VList l =>
      let has k := existsb (fun x => eq_str x k) l in
      if has "initial_price" || has "highest_price" || has "percent_increase"
      then TypeError
      else if has "current_percentage" then AttributeError else TypeError
  | _ => TypeError
  end.

(** Lines 226-248: load the current-state file into the holder and
    migrate what was loaded.  An exception here ends the process. *)
Definition load_and_migrate : M unit :=
  (current_entry <- (fun w => (_load_current (results_file w), w)) ;;
   set_holder current_entry ;;;
   if truthy current_entry then
     with_lock
       (match current_entry with
        | VDict d =>
            entry <- migrate_loaded_entry d ;;
            set_holder (VDict entry) ;;;
            _save_current (VDict entry)
        | _ => lift (Raise (migrate_non_dict_error current_entry))
        end)
   else ret tt)%st.

(** ** Message handler (lines 269-339) *)

Record Config : Type := mkConfig {
  group_ids : list Z;
  user_ids : list Z;
  discovery_mode : bool;
  forward_to_saved : bool
}.

(** A NewMessage event: [date] is
    [event.date.astimezone(timezone.utc).isoformat()]. *)
Record NewMessage : Type := mkNewMessage {
  raw_text : option string;
  chat_id : Z;
  sender_id : Z;
  date : string
}.

Definition new_entry (token_key time_posted : string) : dict :=
  [ ("token", VStr token_key);
    ("time_posted", VStr time_posted);
    ("initial_market_cap", VNone);
    ("highest_market_cap", VNone);
    ("current_market_cap", VNone);
    ("current_percentage", VStr (_format_percent 0));
    ("highest_percent_increase", VNum 0);
    ("reached_50", VBool false);
    ("last_checked", VNone);
    ("pair_url", VNone) ].

(** Lines 311-330: the body of [for token_key in tokens]. *)
Definition ingest_token (time_posted token_key : string) : M unit :=
  (current_entry <- get_holder ;;
   same <-
     (if truthy current_entry
      then token <- lift (py_get current_entry "token" VNone) ;;
           ret (eq_str token token_key)
      else ret false) ;;
   if same : bool then ret tt
   else
     (if truthy current_entry then _append_history current_entry else ret tt) ;;;
     entry <- _refresh_entry_market_cap (VStr token_key)
                (new_entry token_key time_posted) ;;
     set_holder (VDict entry) ;;;
     _save_current (VDict entry))%st.

Fixpoint ingest_tokens (time_posted : string) (tokens : list string) : M unit :=
  match tokens with
  | [] => ret tt
  | token_key :: rest =>
      (ingest_token time_posted token_key ;;; ingest_tokens time_posted rest)%st
  end.

Definition Z_mem (x : Z) (l : list Z) : bool := existsb (Z.eqb x) l.

(** The [try] block of the handler. *)
Definition handler_body (config : Config) (ev : NewMessage) : M unit :=
  (let message := match raw_text ev with Some t => t | None => "" end in
   if discovery_mode config then emit EvSendMessage
   else if negb (Z_mem (chat_id ev) (group_ids config)) then ret tt
   else if (match user_ids config with [] => false | _ => true end)
           && negb (Z_mem (sender_id ev) (user_ids config)) then ret tt
   else
     let tokens := extract_tokens message in
     match tokens with
     | [] => ret tt
     | _ =>
         with_lock (ingest_tokens (date ev) tokens) ;;;
         if forward_to_saved config then emit EvSendMessage else ret tt
     end)%st.

(** [except Exception as exc: logging.exception(...)] *)
Definition handler (config : Config) (ev : NewMessage) : M unit := fun w =>
  match handler_body config ev w with
  | (Raise e, w') => (Ok tt, add_event (EvLogException e) w')
  | r => r
  end.

End Lifecycle.

(** ** Reading a trace: was the lock held at each HTTP request? *)

(** The lock flag after the events, and for every [EvHttpGet], in order,
    whether the lock was held when it was made. *)
Fixpoint fetches_under_lock (held : bool) (tr : list event) : list bool :=
  match tr with
  | [] => []
  | EvAcquire :: tr' => fetches_under_lock true tr'
  | EvRelease :: tr' => fetches_under_lock false tr'
  | EvHttpGet _ :: tr' => held :: fetches_under_lock held tr'
  | _ :: tr' => fetches_under_lock held tr'
  end.


(** Whether the lock is held after the events. *)
Fixpoint lock_after (held : bool) (tr : list event) : bool :=
  match tr with
  | [] => held
  | EvAcquire :: tr' => lock_after true tr'
  | EvRelease :: tr' => lock_after false tr'
  | _ :: tr' => lock_after held tr'
  end.

Definition is_lock_event (ev : event) : bool :=
  match ev with EvAcquire | EvRelease => true | _ => false end.

Definition is_http_event (ev : event) : bool :=
  match ev with EvHttpGet _ => true | _ => false end.

(** Classes of event lists.  [inner]: what may happen inside a locked
    section, the lock itself untouched.  [quiet]: [inner] and no HTTP
    request.  [unlocked_fetches] and [locked_fetches]: the lock is free
    at the end and every HTTP request was made without, respectively
    with, the lock. *)
Definition inner (evs : list event) : Prop :=
  forallb (fun ev => negb (is_lock_event ev)) evs = true.

Definition quiet (evs : list event) : Prop :=
  forallb (fun ev => negb (is_lock_event ev) && negb (is_http_event ev)) evs
  = true.

Definition unlocked_fetches (evs : list event) : Prop :=
  lock_after false evs = false
  /\ forallb negb (fetches_under_lock false evs) = true.

Definition locked_fetches (evs : list event) : Prop :=
  lock_after false evs = false
  /\ forallb (fun b : bool => b) (fetches_under_lock false evs) = true.

(** [m] only appends to the trace, and what it appends is in [P]. *)
Definition emits {A} (P : list event -> Prop) (m : M A) : Prop :=
  forall w, exists evs, trace (snd (m w)) = trace w ++ evs /\ P evs.

(** [P] holds of the empty list and is kept by concatenation. *)
Definition closed (P : list event -> Prop) : Prop :=
  P [] /\ forall a b, P a -> P b -> P (a ++ b).

(** ** The specification's wording, for comparison with the code *)

Section SpecSide.
Context {float_str : FloatOfStr}.

(** A value is numeric when [float] accepts it. *)
Definition numeric (v : value) : option Q :=
  match py_float v with
  | Ok q => Some q
  | Raise _ => None
  end.





End SpecSide.

(** The three shapes of a candidate (section 4.1 of the specification). *)

(** [0x] followed by exactly 40 hexadecimal characters. *)
Definition is_address (t : string) : bool :=
  match list_ascii_of_string t with
  | "0"%char :: "x"%char :: body =>
      (List.length body =? 40)%nat && forallb is_hex body
  | _ => false
  end.

(** 2 to 10 alphanumeric characters, the [$] stripped. *)
Definition is_ticker_name (t : string) : bool :=
  let l := list_ascii_of_string t in
  (2 <=? List.length l)%nat && (List.length l <=? 10)%nat && forallb is_alnum l.

(** 32 to 50 characters of the base58 alphabet. *)
Definition is_mint (t : string) : bool :=
  let l := list_ascii_of_string t in
  (32 <=? List.length l)%nat && (List.length l <=? 50)%nat && forallb is_base58 l.

(** ** Concrete inputs used by the examples *)

(** A current-state file in the legacy shape keyed by token, whose one
    item is a number: [{"items": {"a": 5}}]. *)
Definition legacy_items_file : file :=
  Parsed (VDict [("items", VDict [("a", VNum 5)])]).






(** A configuration that lets group 1 in, and a message from it. *)
Definition open_config : Config := mkConfig [1%Z] [] false false.

Definition message_of (text time_posted : string) : NewMessage :=
  mkNewMessage (Some text) 1 7 time_posted.

(** An answer of the API with no pair in it: [{"pairs": []}]. *)
Definition reply_no_pairs : http_reply :=
  HttpBody (VDict [("pairs", VList [])]).

(** An answer with one pair of the given market cap. *)
Definition reply_market_cap (q : Q) : http_reply :=
  HttpBody
    (VDict [("pairs",
             VList [VDict [("liquidity", VDict [("usd", VNum 5000)]);
                           ("marketCap", VNum q);
                           ("url", VStr "https://dexscreener.com/p")]])]).

(** A process that has just started with no files. *)
Definition fresh_world (replies : list http_reply) : world :=
  mkWorld VNone Missing Missing replies "2026-01-01T00:00:00+00:00" [].

(** An active entry as the handler leaves it after a first fetch that
    found the market cap [q]. *)
Definition tracked_entry (token_key : string) (q : Q) : dict :=
  [ ("token", VStr token_key);
    ("time_posted", VStr "t");
    ("initial_market_cap", VNum q);
    ("highest_market_cap", VNum q);
    ("current_market_cap", VNum q);
    ("current_percentage", VStr "+0.00%");
    ("highest_percent_increase", VNum 0);
    ("reached_50", VBool false);
    ("last_checked", VStr "t");
    ("pair_url", VStr "https://dexscreener.com/p") ].

(** A running process whose active entry is [tracked_entry "ABC" 1000],
    saved in the current-state file. *)
Definition tracking_world (replies : list http_reply) : world :=
  mkWorld (VDict (tracked_entry "ABC" 1000))
    (written (VDict (tracked_entry "ABC" 1000))) Missing replies
    "2026-01-01T00:01:00+00:00" [].

(** ** The invariant of an entry under observation *)

(** The percentage of [x] over [initial], as line 193 computes it. *)
Definition percent (x initial : Q) : Q :=
  if Qeq_bool initial 0 then 0 else ((x - initial) / initial) * 100.

(** What holds of an entry from its first successful fetch on: the caps
    are numbers with [initial_market_cap <= highest_market_cap]; the
    stored [highest_percent_increase] is at most the rounded percentage
    of [highest_market_cap] over [initial_market_cap], or at most 0; and
    [reached_50] is set only when that percentage is at least 50. *)
Definition tracked (d : dict) : Prop :=
  exists i h p r,
    dict_get "initial_market_cap" d = Some (VNum i)
    /\ dict_get "highest_market_cap" d = Some (VNum h)
    /\ dict_get "highest_percent_increase" d = Some (VNum p)
    /\ dict_get "reached_50" d = Some (VBool r)
    /\ (i <= h)%Q
    /\ ((p <= 0)%Q \/ (p <= py_round (percent h i) 4)%Q)
    /\ (r = true -> (50 <= py_round (percent h i) 4)%Q).

(** Observations applied one after the other, as successive turns of
    the monitor apply them to the same active entry. *)
Fixpoint apply_observations (obs : list (Q * value * string)) : St dict unit :=
  match obs with
  | [] => ret tt
  | (market_cap, pair_url, ts) :: rest =>
      (apply_observation market_cap pair_url ts ;;; apply_observations rest)%st
  end.



(** An entry found in the current-state file whose stored
    [highest_percent_increase] (80) and [reached_50] do not follow from
    its market caps (both 1000). *)
Definition stale_entry : dict :=
  [ ("token", VStr "ABC");
    ("time_posted", VStr "t");
    ("initial_market_cap", VNum 1000);
    ("highest_market_cap", VNum 1000);
    ("current_market_cap", VNum 1000);
    ("current_percentage", VStr "+0.00%");
    ("highest_percent_increase", VNum 80);
    ("reached_50", VBool true);
    ("last_checked", VStr "t");
    ("pair_url", VNone) ].

(** ** Ingestion when every request is answered *)

(** An answer of the API on which the fetcher returns without raising. *)
Definition benign_reply {float_str : FloatOfStr} (r : http_reply) : bool :=
  match r with
  | HttpBody data =>
      match market_cap_of_document data with
      | Ok _ => true
      | Raise _ => false
      end
  | HttpFail _ => false
  end.

(** The token the holder tracks does not occur among [tokens]; an empty
    holder tracks none. *)
Definition active_token_not_in (holder_value : value) (tokens : list string) : Prop :=
  truthy holder_value = false
  \/ exists d,
       holder_value = VDict d
       /\ truthy holder_value = true
       /\ forall t, In t tokens ->
                    eq_str (dict_get_default "token" VNone d) t = false.

(** The history file is absent or was written by [_append_history]. *)
Definition history_written (f : file) : Prop :=
  f = Missing \/ exists l, f = written (VList l).

(** What the history file holds, as [_load_history] reads it. *)
Definition history_of (w : world) : list value :=
  match _load_history (history_file w) with
  | Ok l => l
  | Raise _ => []
  end.

(** Keys in ascending order. *)
Fixpoint keys_sorted (d : dict) : Prop :=
  match d with
  | [] => True
  | kv :: d' =>
      match d' with
      | [] => True
      | kv' :: _ => String.leb (fst kv) (fst kv') = true /\ keys_sorted d'
      end
  end.

(** The entries a run of ingestion archives: the entry that was active
    before it, if any, and every entry it created except the last. *)
Definition archived (previous : value) (entries : list dict) : list value :=
  match entries with
  | [] => []
  | _ :: _ =>
      (if truthy previous then [previous] else [])
        ++ removelast (map VDict entries)
  end.

(** Two pair records, the second with the greater liquidity. *)
Definition two_pairs : list value :=
  [ VDict [("liquidity", VDict [("usd", VNum 10)])];
    VDict [("liquidity", VDict [("usd", VNum 25)]); ("url", VStr "u")] ].

(** ** The static token at start-up (lines 250-267) *)

Section StaticToken.
Context {float_str : FloatOfStr}.

(** [if config.static_tokens and not current_holder["entry"]]: the last
    static token becomes the active entry, its time the present one. *)
Definition start_static_token (static_tokens : list string) : M unit :=
  (current_entry <- get_holder ;;
   match static_tokens with
   | [] => ret tt
   | first_token :: _ =>
       if truthy current_entry then ret tt
       else
         with_lock
           (let token_key := last static_tokens first_token in
            ts <- _utc_now_iso ;;
            entry <- _refresh_entry_market_cap (VStr token_key)
                       (new_entry token_key ts) ;;
            set_holder (VDict entry) ;;;
            _save_current (VDict entry))
   end)%st.

End StaticToken.

(** ** The configuration ([config.py])

    The environment is a partial map from names to values.  Text is
    ASCII here as well: [strip], [lower] and [int] are modelled on the
    ASCII characters, and the cap that recent Python versions put on the
    number of digits [int] accepts is not modelled. *)

Module ConfigPy.

Definition environ : Type := string -> option string.

(** [os.getenv(name, default)] *)
Definition getenv (env : environ) (name : string) (default : option string)
  : option string :=
  match env name with
  | Some v => Some v
  | None => default
  end.

(** [os.getenv(name, default)] with a [str] default. *)
Definition getenv_or (env : environ) (name default : string) : string :=
  match env name with
  | Some v => v
  | None => default
  end.

Definition _get_env (env : environ) (name : string) (required : bool)
    (default : option string) : result string :=
  let value := getenv env name default in
  let empty := match value with
               | Some v => String.eqb v ""
               | None => true
               end in
  if required && empty then Raise ValueError
  else Ok (match value with Some v => v | None => "" end).

(** [str.isspace] on ASCII: tab to carriage return, the four separators
    and the space. *)
Definition is_space (c : ascii) : bool :=
  let n := N_of_ascii c in
  ((9 <=? n)%N && (n <=? 13)%N) || ((28 <=? n)%N && (n <=? 32)%N).

(** Removal of the characters in [p] at both ends. *)
Definition strip_chars (p : ascii -> bool) (l : list ascii) : list ascii :=
  rev (drop_while p (rev (drop_while p l))).

(** [s.strip()] *)
Definition str_strip (s : string) : string :=
  string_of_list_ascii (strip_chars is_space (list_ascii_of_string s)).

(** [s.split(sep)] for a separator of one character. *)
Fixpoint split_on (sep : ascii) (s : list ascii) : list (list ascii) :=
  match s with
  | [] => [[]]
  | c :: s' =>
      if Ascii.eqb c sep then [] :: split_on sep s'
      else
        match split_on sep s' with
        | piece :: pieces => (c :: piece) :: pieces
        | [] => [[c]]
        end
  end.

Definition str_split (sep : ascii) (s : string) : list string :=
  map string_of_list_ascii (split_on sep (list_ascii_of_string s)).

(** The digits of an integer literal: digits, single underscores allowed
    between two of them. *)
Fixpoint int_body (after_digit : bool) (s : list ascii) : option (list ascii) :=
  match s with
  | [] => if after_digit then Some [] else None
  | c :: s' =>
      if is_digit c then option_map (cons c) (int_body true s')
      else if Ascii.eqb c "_" && after_digit then int_body false s'
      else None
  end.

(** [int(s)] for a [str]: blanks around, an optional sign, the digits. *)
Definition py_int (s : string) : result Z :=
  let l := strip_chars is_blank (list_ascii_of_string s) in
  let '(neg, l) := split_sign l in
  match int_body false l with
  | Some ds =>
      match NilEmpty.uint_of_string (string_of_list_ascii ds) with
      | Some u =>
          let n := Z.of_N (N.of_uint u) in
          Ok (if neg : bool then (- n)%Z else n)
      | None => Raise ValueError
      end
  | None => Raise ValueError
  end.

(** [[int(item.strip()) for item in items if item.strip()]] *)
Fixpoint parse_int_items (items : list string) : result (list Z) :=
  match items with
  | [] => Ok []
  | item :: rest =>
      if String.eqb (str_strip item) "" then parse_int_items rest
      else
        (n <- py_int (str_strip item) ;;
         ns <- parse_int_items rest ;;
         Ok (n :: ns))%res
  end.

Definition _parse_int_list (value : string) : result (list Z) :=
  if String.eqb value "" then Ok []
  else parse_int_items (str_split "," value).

Definition _parse_str_list (value : string) : list string :=
  if String.eqb value "" then []
  else
    map str_strip
      (filter (fun item => negb (String.eqb (str_strip item) ""))
         (str_split "," value)).

Record Config : Type := mkConfig {
  api_id : Z;
  api_hash : string;
  group_ids : list Z;
  user_ids : list Z;
  private_key : string;
  rpc_url : string;
  router_address : string;
  weth_address : string;
  slippage_bps : Z;
  gas_limit : Z;
  max_buy_amount_eth : Q;
  chain_id : Z;
  receipt_timeout_sec : Z;
  discovery_mode : bool;
  forward_to_saved : bool;
  price_check_interval_sec : Z;
  output_json_path : string;
  history_json_path : string;
  static_tokens : list string
}.

Definition ascii_lower (c : ascii) : ascii :=
  if in_range "A" "Z" c then ascii_of_N (N_of_ascii c + 32) else c.

(** [s.lower()] *)
Definition str_lower (s : string) : string :=
  string_of_list_ascii (map ascii_lower (list_ascii_of_string s)).

(** [os.getenv(name, "0").lower() in ("1", "true", "yes")] *)
Definition env_flag (env : environ) (name : string) : bool :=
  let v := str_lower (getenv_or env name "0") in
  String.eqb v "1" || String.eqb v "true" || String.eqb v "yes".

Section Load.
Context {float_str : FloatOfStr}.

Definition load_config (env : environ) : result Config :=
  (let discovery_mode := env_flag env "DISCOVERY_MODE" in
   let trading_enabled := env_flag env "ENABLE_TRADING" in
   api_id_text <- _get_env env "API_ID" true None ;;
   api_id <- py_int api_id_text ;;
   api_hash <- _get_env env "API_HASH" true None ;;
   group_text <- _get_env env "GROUP_IDS" (negb discovery_mode) (Some "") ;;
   group_ids <- _parse_int_list group_text ;;
   user_text <- _get_env env "USER_IDS" false (Some "") ;;
   user_ids <- _parse_int_list user_text ;;
   private_key <- _get_env env "PRIVATE_KEY" trading_enabled (Some "") ;;
   rpc_url <- _get_env env "RPC_URL" trading_enabled (Some "") ;;
   router_address <- _get_env env "DEX_ROUTER_ADDRESS" trading_enabled (Some "") ;;
   weth_address <- _get_env env "WETH_ADDRESS" trading_enabled (Some "") ;;
   slippage_bps <- py_int (getenv_or env "SLIPPAGE_BPS" "200") ;;
   gas_limit <- py_int (getenv_or env "GAS_LIMIT" "300000") ;;
   max_buy_amount_eth <-
     match float_of_str (getenv_or env "MAX_BUY_AMOUNT_ETH" "0.01") with
     | Some q => Ok q
     | None => Raise ValueError
     end ;;
   chain_id <- py_int (getenv_or env "CHAIN_ID" "1") ;;
   receipt_timeout_sec <- py_int (getenv_or env "RECEIPT_TIMEOUT_SEC" "120") ;;
   let forward_to_saved := env_flag env "FORWARD_TO_SAVED" in
   price_check_interval_sec <-
     py_int (getenv_or env "PRICE_CHECK_INTERVAL_SEC" "60") ;;
   let output_json_path :=
     getenv_or env "OUTPUT_JSON_PATH" "token_results.json" in
   let history_json_path :=
     getenv_or env "HISTORY_JSON_PATH" "token_history.json" in
   let static_tokens := _parse_str_list (getenv_or env "STATIC_TOKENS" "") in
   if negb discovery_mode && match group_ids with [] => true | _ => false end
   then Raise ValueError
   else
     Ok (mkConfig api_id api_hash group_ids user_ids private_key rpc_url
           router_address weth_address slippage_bps gas_limit
           max_buy_amount_eth chain_id receipt_timeout_sec discovery_mode
           forward_to_saved price_check_interval_sec output_json_path
           history_json_path static_tokens))%res.

End Load.

End ConfigPy.

(** What the message handler reads of a loaded configuration. *)
Definition handler_config (c : ConfigPy.Config) : Config :=
  mkConfig (ConfigPy.group_ids c) (ConfigPy.user_ids c)
    (ConfigPy.discovery_mode c) (ConfigPy.forward_to_saved c).

(** ** Helpers of the statements *)

(** [",".join(items)] *)
Fixpoint join_comma (items : list string) : string :=
  match items with
  | [] => ""
  | [item] => item
  | item :: rest => item ++ "," ++ join_comma rest
  end.

(** [str(n)] for an [int]. *)
Definition str_of_int (n : Z) : string :=
  if (n <? 0)%Z then "-" ++ decimal (- n) else decimal n.

(** An item that [_parse_str_list] returns as it is: not empty, no
    comma, no space at either end. *)
Definition clean_item (item : string) : bool :=
  let l := list_ascii_of_string item in
  forallb (fun c => negb (Ascii.eqb c ",")) l
  && match l with
     | [] => false
     | c :: _ => negb (ConfigPy.is_space c)
     end
  && match rev l with
     | [] => false
     | c :: _ => negb (ConfigPy.is_space c)
     end.

(** No character of [l] is the separator. *)
Definition not_sep (sep : ascii) (l : list ascii) : bool :=
  forallb (fun c => negb (Ascii.eqb c sep)) l.

Definition no_comma (item : string) : bool :=
  not_sep "," (list_ascii_of_string item).

(** The keys that a fetch or an observation may assign. *)
Definition market_keys : list string :=
  [ "initial_market_cap"; "highest_market_cap"; "current_market_cap";
    "current_percentage"; "highest_percent_increase"; "reached_50";
    "last_checked"; "pair_url" ].

Definition is_market_key (k : string) : bool :=
  existsb (String.eqb k) market_keys.


(** The characters [quote] leaves in a URL. *)
Definition url_safe (c : ascii) : bool :=
  is_alnum c || existsb (Ascii.eqb c) ["_"; "."; "-"; "~"; "/"; "%"]%char.

(** [m] occurs in [s] as a contiguous piece. *)
Definition occurs_in (m s : string) : Prop :=
  exists before after : string, s = (before ++ m ++ after)%string.

(** The URL a fetch for [key] requests. *)
Definition fetch_url (key : string) : string :=
  if String.prefix "0x" key
  then "https://api.dexscreener.com/latest/dex/tokens/" ++ key
  else "https://api.dexscreener.com/latest/dex/search/?q=" ++ quote key.

(** [m] leaves the holder, both files and the clock as they are. *)
Definition keeps_state {A} (m : M A) : Prop :=
  forall w,
    holder (snd (m w)) = holder w
    /\ results_file (snd (m w)) = results_file w
    /\ history_file (snd (m w)) = history_file w
    /\ now (snd (m w)) = now w.

(** [v'] is [v] up to the market keys: the same object if [v] is no
    dict, a dict with the same value under every other key if it is. *)
Definition keeps_identity (v v' : value) : Prop :=
  match v with
  | VDict d =>
      exists d',
        v' = VDict d'
        /\ forall k, is_market_key k = false -> dict_get k d' = dict_get k d
  | _ => v' = v
  end.

(** No active entry to observe: the holder is empty, or its entry has
    no token. *)
Definition nothing_to_observe (v : value) : Prop :=
  truthy v = false
  \/ exists d, v = VDict d /\ truthy (dict_get_default "token" VNone d) = false.

(** An entry in the legacy shape, with prices and [percent_increase]. *)
Definition legacy_entry : dict :=
  [ ("token", VStr "ABC");
    ("initial_price", VNum 1);
    ("highest_price", VNum 2);
    ("percent_increase", VNum (25 # 2));
    ("initial_market_cap", VNum 1000) ].

(** An environment with the three required variables and a few others. *)
Definition sample_environ : ConfigPy.environ :=
  fun name =>
    if String.eqb name "API_ID" then Some " 12345 "
    else if String.eqb name "API_HASH" then Some "abcdef"
    else if String.eqb name "GROUP_IDS" then Some "-1001, 42 ,,7,"
    else if String.eqb name "FORWARD_TO_SAVED" then Some "Yes"
    else if String.eqb name "STATIC_TOKENS" then Some " PEPE , 0xabc "
    else None.

(** No variable is set. *)
Definition empty_environ : ConfigPy.environ := fun _ => None.

(** The configuration that [sample_environ] gives. *)
Definition sample_config : ConfigPy.Config :=
  ConfigPy.mkConfig 12345 "abcdef" [(-1001)%Z; 42%Z; 7%Z] [] "" "" "" ""
    200 300000 (1 # 100) 1 120 false true 60
    "token_results.json" "token_history.json" ["PEPE"; "0xabc"]%string.
(** * Properties *)

(** ** Arithmetic helpers *)

Lemma Qltb_true (x y : Q) : Qltb x y = true <-> (x < y)%Q.
Proof.
  unfold Qltb. rewrite negb_true_iff.
  split; intro H.
  - apply Qnot_le_lt. intro L. apply Qle_bool_iff in L. congruence.
  - destruct (Qle_bool y x) eqn:E; [|reflexivity].
    apply Qle_bool_iff in E. exfalso. exact (Qlt_not_le _ _ H E).
Qed.

Lemma Qltb_false (x y : Q) : Qltb x y = false <-> (y <= x)%Q.
Proof.
  unfold Qltb. rewrite negb_false_iff. apply Qle_bool_iff.
Qed.

(** ** The loaders (C10) *)

Lemma try_except_absorbs {A} (body : result A) (a : A) :
  exists r, try_except body (fun _ => Ok a) = Ok r.
Proof. destruct body; cbn; eauto. Qed.

Lemma _load_current_total (f : file) : exists v, _load_current f = Ok v.
Proof.
  destruct f; cbn [_load_current]; eauto;
    match goal with
    | |- context [try_except ?b ?h] =>
        destruct (try_except_absorbs b None) as [[v|] ->]; cbn; eauto
    end.
Qed.

Lemma _load_history_total (f : file) : exists l, _load_history f = Ok l.
Proof.
  destruct f; cbn [_load_history]; eauto;
    match goal with
    | |- context [try_except ?b ?h] =>
        destruct (try_except_absorbs b None) as [[v|] ->]; cbn; eauto
    end.
Qed.

(** C10: both loaders return on every file content and never raise, and
    the history loader returns a list; but the current-state loader hands
    back whatever the legacy [items] object holds, here the number 5,
    which is neither an entry dictionary nor None, and the start-up code
    that receives it raises TypeError. *)
Theorem C10_loaders_total_current_not_always_dict :
  (forall f, exists v, _load_current f = Ok v)
  /\ (forall f, exists l, _load_history f = Ok l)
  /\ _load_current legacy_items_file = Ok (VNum 5)
  /\ is_dict (VNum 5) || is_none (VNum 5) = false
  /\ fst (load_and_migrate
            (mkWorld VNone legacy_items_file Missing [] "" []))
     = Raise TypeError.
Proof.
  split; [exact _load_current_total|].
  split; [exact _load_history_total|].
  repeat split; reflexivity.
Qed.

(** ** Market cap of a pair (C8) *)

Section MarketCap.
Context {float_str : FloatOfStr}.


Lemma numeric_none : numeric VNone = None.
Proof. reflexivity. Qed.



End MarketCap.


(** ** Pair selection (C7) *)

Section PairSelection.
Context {float_str : FloatOfStr}.




(** No pair at all: the fetch result is [(None, None)]. *)
Lemma market_cap_of_document_no_pairs (d : dict) :
  truthy (dict_get_default "pairs" VNone d) = false ->
  market_cap_of_document (VDict d) = Ok (None, VNone).
Proof.
  intro H. unfold market_cap_of_document. cbn [py_get rbind].
  unfold py_or at 1. rewrite H. reflexivity.
Qed.


End PairSelection.


Example pick_best_of_two_pairs :
  _pick_best_pair (VList two_pairs)
  = Ok (VDict [("liquidity", VDict [("usd", VNum 25)]); ("url", VStr "u")]).
Proof. reflexivity. Qed.


(** ** Token classifier (C6) *)

Lemma take_upto_all (p : ascii -> bool) (n : nat) (s : list ascii) :
  forallb p (take_upto p n s) = true.
Proof.
  revert s. induction n as [|n IH]; intros [|c s]; cbn; try reflexivity.
  destruct (p c) eqn:E; cbn; [|reflexivity]. rewrite E. apply IH.
Qed.

Lemma take_upto_length (p : ascii -> bool) (n : nat) (s : list ascii) :
  (List.length (take_upto p n s) <= n)%nat.
Proof.
  revert s. induction n as [|n IH]; intros [|c s]; cbn; try lia.
  destruct (p c); cbn; [|lia]. specialize (IH s). lia.
Qed.

Lemma take_upto_prefix (p : ascii -> bool) (n : nat) (s : list ascii) :
  take_upto p n s = firstn (List.length (take_upto p n s)) s.
Proof.
  revert s. induction n as [|n IH]; intros [|c s]; cbn; try reflexivity.
  destruct (p c); cbn; [|reflexivity]. f_equal. apply IH.
Qed.

Lemma forallb_firstn {A} (p : A -> bool) (k : nat) (l : list A) :
  forallb p l = true -> forallb p (firstn k l) = true.
Proof.
  revert l. induction k as [|k IH]; intros [|x l]; cbn; try reflexivity.
  intro H. apply andb_true_iff in H as [-> H]. cbn. apply IH, H.
Qed.

Lemma match_address_shape (s m : list ascii) :
  match_address s = Some m -> is_address (string_of_list_ascii m) = true.
Proof.
  unfold match_address, is_address.
  destruct s as [|c0 [|c1 rest]]; try discriminate.
  - destruct c0 as [[] [] [] [] [] [] [] []]; discriminate.
  - destruct (Ascii.eqb_spec c0 "0"); [subst c0|
      destruct c0 as [[] [] [] [] [] [] [] []]; try discriminate; congruence].
    destruct (Ascii.eqb_spec c1 "x"); [subst c1|
      destruct c1 as [[] [] [] [] [] [] [] []]; try discriminate; congruence].
    pose proof (take_upto_all is_hex 40 rest) as Hall.
    set (body := take_upto is_hex 40 rest) in *. clearbody body.
    destruct (List.length body =? 40)%nat eqn:E; [|discriminate].
    intros [= <-]. rewrite list_ascii_of_string_of_list_ascii.
    cbv beta iota. rewrite E, Hall. reflexivity.
Qed.

Lemma match_ticker_shape (s m : list ascii) :
  match_ticker s = Some m ->
  is_ticker_name (drop_first (string_of_list_ascii m)) = true.
Proof.
  unfold match_ticker, is_ticker_name.
  destruct s as [|c0 rest]; try discriminate.
  destruct (Ascii.eqb_spec c0 "$"); [subst c0|
    destruct c0 as [[] [] [] [] [] [] [] []]; try discriminate; congruence].
  pose proof (take_upto_all is_alnum 10 rest) as Hall.
  pose proof (take_upto_length is_alnum 10 rest) as L.
  apply Nat.leb_le in L.
  set (body := take_upto is_alnum 10 rest) in *. clearbody body.
  destruct (2 <=? List.length body)%nat eqn:E; [|discriminate].
  intros [= <-]. cbn [string_of_list_ascii drop_first].
  rewrite list_ascii_of_string_of_list_ascii, E, Hall, L. reflexivity.
Qed.

Lemma match_base58_shape (prev : option ascii) (s m : list ascii) :
  match_base58 prev s = Some m -> is_mint (string_of_list_ascii m) = true.
Proof.
  unfold match_base58, is_mint.
  destruct (word_boundary prev (hd_error s)); [|discriminate].
  set (run := List.length (take_upto is_base58 50 s)).
  destruct (find _ (rev (seq 32 (run - 31)))) as [k|] eqn:F; [|discriminate].
  intros [= <-]. apply find_some in F as [Hin _].
  apply in_rev, in_seq in Hin.
  pose proof (take_upto_length is_base58 50 s) as L. fold run in L.
  assert (Hk : firstn k s = firstn k (take_upto is_base58 50 s)).
  { rewrite (take_upto_prefix is_base58 50 s). fold run.
    rewrite firstn_firstn. f_equal. lia. }
  rewrite list_ascii_of_string_of_list_ascii.
  assert (Hlen : List.length (firstn k s) = k).
  { rewrite Hk, length_firstn. fold run. lia. }
  rewrite Hlen, Hk, forallb_firstn by apply take_upto_all.
  replace (32 <=? k)%nat with true by (symmetry; apply Nat.leb_le; lia).
  replace (k <=? 50)%nat with true by (symmetry; apply Nat.leb_le; lia).
  reflexivity.
Qed.

(** Every string [findall] returns is a match of the pattern. *)
Lemma findall_Forall
    (try_match : option ascii -> list ascii -> option (list ascii))
    (P : string -> Prop) :
  (forall prev s m, try_match prev s = Some m -> P (string_of_list_ascii m)) ->
  forall s prev skip, Forall P (findall try_match prev skip s).
Proof.
  intros H s. induction s as [|c rest IH]; intros prev skip; cbn.
  - constructor.
  - destruct skip as [|k]; [|apply IH].
    destruct (try_match prev (c :: rest)) as [m|] eqn:E; [|apply IH].
    constructor; [exact (H _ _ _ E)|apply IH].
Qed.



(** ** Lock discipline (C4) *)

Lemma lock_after_app (h : bool) (a b : list event) :
  lock_after h (a ++ b) = lock_after (lock_after h a) b.
Proof.
  revert h. induction a as [|ev a IH]; intro h; [reflexivity|].
  destruct ev; cbn; apply IH.
Qed.

Lemma fetches_under_lock_app (h : bool) (a b : list event) :
  fetches_under_lock h (a ++ b)
  = fetches_under_lock h a ++ fetches_under_lock (lock_after h a) b.
Proof.
  revert h. induction a as [|ev a IH]; intro h; [reflexivity|].
  destruct ev; cbn; rewrite ?IH; reflexivity.
Qed.

Lemma inner_lock_after (h : bool) (evs : list event) :
  inner evs -> lock_after h evs = h.
Proof.
  unfold inner. induction evs as [|ev evs IH]; [reflexivity|].
  cbn. intro H. apply andb_true_iff in H as [H1 H2].
  destruct ev; try discriminate; cbn; apply IH, H2.
Qed.

Lemma inner_fetches (evs : list event) :
  inner evs -> forallb (fun b : bool => b) (fetches_under_lock true evs) = true.
Proof.
  unfold inner. induction evs as [|ev evs IH]; [reflexivity|].
  cbn. intro H. apply andb_true_iff in H as [H1 H2].
  destruct ev; try discriminate; cbn; apply IH, H2.
Qed.

Lemma quiet_inner (evs : list event) : quiet evs -> inner evs.
Proof.
  unfold quiet, inner. induction evs as [|ev evs IH]; [reflexivity|].
  cbn. intro H. apply andb_true_iff in H as [H1 H2].
  apply andb_true_iff in H1 as [-> _]. cbn. apply IH, H2.
Qed.

Lemma quiet_fetches (h : bool) (evs : list event) :
  quiet evs -> fetches_under_lock h evs = [].
Proof.
  unfold quiet. induction evs as [|ev evs IH]; [reflexivity|].
  cbn. intro H. apply andb_true_iff in H as [H1 H2].
  destruct ev; try discriminate; cbn; apply IH, H2.
Qed.

Lemma closed_inner : closed inner.
Proof.
  split; [reflexivity|]. unfold inner. intros a b Ha Hb.
  rewrite forallb_app, Ha, Hb. reflexivity.
Qed.

Lemma closed_quiet : closed quiet.
Proof.
  split; [reflexivity|]. unfold quiet. intros a b Ha Hb.
  rewrite forallb_app, Ha, Hb. reflexivity.
Qed.

Lemma closed_unlocked_fetches : closed unlocked_fetches.
Proof.
  split; [split; reflexivity|]. intros a b [La Fa] [Lb Fb]. split.
  - rewrite lock_after_app, La. exact Lb.
  - rewrite fetches_under_lock_app, forallb_app, Fa, La, Fb. reflexivity.
Qed.

Lemma closed_locked_fetches : closed locked_fetches.
Proof.
  split; [split; reflexivity|]. intros a b [La Fa] [Lb Fb]. split.
  - rewrite lock_after_app, La. exact Lb.
  - rewrite fetches_under_lock_app, forallb_app, Fa, La, Fb. reflexivity.
Qed.

Lemma quiet_unlocked (evs : list event) : quiet evs -> unlocked_fetches evs.
Proof.
  intro H. split.
  - apply inner_lock_after, quiet_inner, H.
  - rewrite quiet_fetches by exact H. reflexivity.
Qed.

Lemma quiet_locked (evs : list event) : quiet evs -> locked_fetches evs.
Proof.
  intro H. split.
  - apply inner_lock_after, quiet_inner, H.
  - rewrite quiet_fetches by exact H. reflexivity.
Qed.

Lemma emits_weaken {A} (P Q : list event -> Prop) (m : M A) :
  (forall evs, P evs -> Q evs) -> emits P m -> emits Q m.
Proof.
  intros HPQ Hm w. destruct (Hm w) as (evs & Ht & HP). eauto.
Qed.

Lemma emits_silent {A} (P : list event -> Prop) (m : M A) :
  closed P -> (forall w, trace (snd (m w)) = trace w) -> emits P m.
Proof.
  intros [HP _] Hm w. exists []. rewrite app_nil_r. auto.
Qed.

Lemma emits_bind {A B} (P : list event -> Prop) (m : M A) (k : A -> M B) :
  closed P -> emits P m -> (forall a, emits P (k a)) -> emits P (bind m k).
Proof.
  intros [HP0 HPapp] Hm Hk w. unfold bind.
  destruct (Hm w) as (e1 & Ht1 & HP1).
  destruct (m w) as [[a|e] w1]; cbn [snd] in *.
  - destruct (Hk a w1) as (e2 & Ht2 & HP2).
    exists (e1 ++ e2). rewrite Ht2, Ht1, app_assoc. auto.
  - exists e1. auto.
Qed.

Lemma emits_emit (P : list event -> Prop) (ev : event) :
  P [ev] -> emits P (emit ev).
Proof. intros H w. exists [ev]. auto. Qed.

Lemma emits_with_lock_quiet {A} (m : M A) :
  emits quiet m -> emits unlocked_fetches (with_lock m).
Proof.
  intros Hm w. unfold with_lock.
  destruct (Hm (add_event EvAcquire w)) as (evs & Ht & Hq).
  destruct (m (add_event EvAcquire w)) as [r w1]; cbn [snd] in *.
  exists ([EvAcquire] ++ evs ++ [EvRelease]).
  split; [cbn [add_event trace snd]; rewrite Ht; cbn [add_event trace];
          rewrite <- !app_assoc; reflexivity|].
  split.
  - cbn. rewrite lock_after_app. reflexivity.
  - cbn. rewrite fetches_under_lock_app, quiet_fetches by exact Hq. reflexivity.
Qed.

Lemma emits_with_lock_inner {A} (m : M A) :
  emits inner m -> emits locked_fetches (with_lock m).
Proof.
  intros Hm w. unfold with_lock.
  destruct (Hm (add_event EvAcquire w)) as (evs & Ht & Hq).
  destruct (m (add_event EvAcquire w)) as [r w1]; cbn [snd] in *.
  exists ([EvAcquire] ++ evs ++ [EvRelease]).
  split; [cbn [add_event trace snd]; rewrite Ht; cbn [add_event trace];
          rewrite <- !app_assoc; reflexivity|].
  split.
  - cbn. rewrite lock_after_app. reflexivity.
  - cbn. rewrite fetches_under_lock_app, forallb_app, inner_fetches by exact Hq.
    reflexivity.
Qed.

Lemma emits_with_entry {A} (P : list event -> Prop) (m : St dict A) :
  closed P -> emits P (with_entry m).
Proof.
  intro HP. apply emits_silent; [exact HP|]. intro w. unfold with_entry.
  destruct (holder w); try reflexivity. destruct (m d). reflexivity.
Qed.

Lemma emits_save_current (v : value) : emits quiet (_save_current v).
Proof. intro w. exists [EvWriteCurrent]. split; reflexivity. Qed.

Lemma emits_append_history (v : value) : emits quiet (_append_history v).
Proof.
  intro w. unfold _append_history.
  destruct (_load_history (history_file w)).
  - exists [EvWriteHistory]. split; reflexivity.
  - exists []. cbn. rewrite app_nil_r. split; reflexivity.
Qed.

Lemma emits_http_get (url : string) :
  emits (fun evs => evs = [EvHttpGet url]) (_http_get_json url).
Proof.
  intro w. exists [EvHttpGet url]. split; [|reflexivity].
  unfold _http_get_json. cbn.
  destruct (network w) as [|[e|data] rest]; reflexivity.
Qed.

Section LockDiscipline.
Context {float_str : FloatOfStr}.

(** A fetch makes HTTP requests and touches nothing else. *)
Lemma emits_fetch_market_cap (P : list event -> Prop) (token_key : value) :
  closed P -> (forall url, P [EvHttpGet url]) ->
  emits P (fetch_market_cap token_key).
Proof.
  intros HP Hget.
  assert (Hhttp : forall url, emits P (_http_get_json url)).
  { intro url. eapply emits_weaken; [|apply emits_http_get].
    intros evs ->. apply Hget. }
  unfold fetch_market_cap, _fetch_market_cap_for_address,
    _fetch_market_cap_for_ticker.
  destruct token_key; try (apply emits_silent; [exact HP|reflexivity]).
  destruct (String.prefix "0x" s);
    (apply emits_bind; [exact HP|apply Hhttp|]);
    intro data; apply emits_silent; try exact HP; reflexivity.
Qed.

Lemma emits_refresh (P : list event -> Prop) (token_key : value) (entry : dict) :
  closed P -> (forall url, P [EvHttpGet url]) ->
  emits P (_refresh_entry_market_cap token_key entry).
Proof.
  intros HP Hget. unfold _refresh_entry_market_cap.
  apply emits_bind; [exact HP|apply emits_fetch_market_cap; assumption|].
  intros [[mc|] url]; cbn [fst snd].
  - apply emits_bind; [exact HP|apply emits_silent; [exact HP|reflexivity]|].
    intro ts. apply emits_silent; [exact HP|reflexivity].
  - apply emits_silent; [exact HP|reflexivity].
Qed.

Lemma inner_http (url : string) : inner [EvHttpGet url].
Proof. reflexivity. Qed.

Lemma unlocked_http (url : string) : unlocked_fetches [EvHttpGet url].
Proof. split; reflexivity. Qed.

Lemma emits_monitor_update (key : string) (mc : Q) (url : value) :
  emits unlocked_fetches (monitor_update key mc url).
Proof.
  unfold monitor_update. apply emits_with_lock_quiet.
  apply emits_bind; [apply closed_quiet|
                     apply emits_silent; [apply closed_quiet|reflexivity]|].
  intro entry. destruct (negb (truthy entry));
    [apply emits_silent; [apply closed_quiet|reflexivity]|].
  apply emits_bind; [apply closed_quiet|
                     apply emits_silent; [apply closed_quiet|reflexivity]|].
  intro token. destruct (negb (eq_str token key));
    [apply emits_silent; [apply closed_quiet|reflexivity]|].
  apply emits_bind; [apply closed_quiet|
                     apply emits_silent; [apply closed_quiet|reflexivity]|].
  intro ts.
  apply emits_bind; [apply closed_quiet|apply emits_with_entry, closed_quiet|].
  intros _.
  apply emits_bind; [apply closed_quiet|
                     apply emits_silent; [apply closed_quiet|reflexivity]|].
  intro e. apply emits_save_current.
Qed.

Lemma emits_monitor_cycle : emits unlocked_fetches monitor_cycle.
Proof.
  pose proof closed_unlocked_fetches as HC.
  unfold monitor_cycle.
  apply emits_bind; [exact HC|apply emits_emit; split; reflexivity|].
  intros _.
  apply emits_bind; [exact HC| |].
  { apply emits_with_lock_quiet.
    apply emits_silent; [apply closed_quiet|reflexivity]. }
  intro entry. destruct (negb (truthy entry));
    [apply emits_silent; [exact HC|reflexivity]|].
  apply emits_bind; [exact HC|apply emits_silent; [exact HC|reflexivity]|].
  intro token_key. destruct (negb (truthy token_key));
    [apply emits_silent; [exact HC|reflexivity]|].
  apply emits_bind; [exact HC| |].
  { apply emits_fetch_market_cap; [exact HC|apply unlocked_http]. }
  intros [[mc|] url]; cbn [fst snd];
    [|apply emits_silent; [exact HC|reflexivity]].
  destruct token_key; try (apply emits_silent; [exact HC|reflexivity]).
  apply emits_monitor_update.
Qed.

Lemma market_cap_monitor_trace (cycles : nat) (w : world) :
  exists evs,
    trace (snd (market_cap_monitor cycles w)) = trace w ++ evs
    /\ unlocked_fetches evs.
Proof.
  destruct closed_unlocked_fetches as [H0 Happ].
  revert w. induction cycles as [|n IH]; intro w; cbn [market_cap_monitor].
  - exists []. rewrite app_nil_r. auto.
  - destruct (emits_monitor_cycle w) as (e1 & Ht1 & H1).
    destruct (monitor_cycle w) as [[u|e] w1]; cbn [snd] in *.
    + destruct (IH w1) as (e2 & Ht2 & H2).
      exists (e1 ++ e2). rewrite Ht2, Ht1, app_assoc. auto.
    + exists e1. auto.
Qed.

Lemma emits_ingest_token (time_posted token_key : string) :
  emits inner (ingest_token time_posted token_key).
Proof.
  pose proof closed_inner as HC.
  unfold ingest_token.
  apply emits_bind; [exact HC|apply emits_silent; [exact HC|reflexivity]|].
  intro current_entry.
  apply emits_bind; [exact HC| |].
  { destruct (truthy current_entry);
      [|apply emits_silent; [exact HC|reflexivity]].
    apply emits_bind; [exact HC|apply emits_silent; [exact HC|reflexivity]|].
    intro token. apply emits_silent; [exact HC|reflexivity]. }
  intros [|]; [apply emits_silent; [exact HC|reflexivity]|].
  apply emits_bind; [exact HC| |].
  { destruct (truthy current_entry);
      [|apply emits_silent; [exact HC|reflexivity]].
    eapply emits_weaken; [apply quiet_inner|apply emits_append_history]. }
  intros _.
  apply emits_bind; [exact HC|apply emits_refresh; [exact HC|apply inner_http]|].
  intro entry.
  apply emits_bind; [exact HC|apply emits_silent; [exact HC|reflexivity]|].
  intros _. eapply emits_weaken; [apply quiet_inner|apply emits_save_current].
Qed.

Lemma emits_ingest_tokens (time_posted : string) (tokens : list string) :
  emits inner (ingest_tokens time_posted tokens).
Proof.
  induction tokens as [|t rest IH]; cbn [ingest_tokens].
  - apply emits_silent; [apply closed_inner|reflexivity].
  - apply emits_bind; [apply closed_inner|apply emits_ingest_token|].
    intros _. exact IH.
Qed.

Lemma emits_handler_body (config : Config) (ev : NewMessage) :
  emits locked_fetches (handler_body config ev).
Proof.
  pose proof closed_locked_fetches as HC.
  assert (Hsend : emits locked_fetches (emit EvSendMessage)).
  { apply emits_emit. split; reflexivity. }
  unfold handler_body.
  destruct (discovery_mode config); [exact Hsend|].
  destruct (negb (Z_mem (chat_id ev) (group_ids config)));
    [apply emits_silent; [exact HC|reflexivity]|].
  destruct (_ && _); [apply emits_silent; [exact HC|reflexivity]|].
  destruct (extract_tokens _) as [|t rest];
    [apply emits_silent; [exact HC|reflexivity]|].
  apply emits_bind; [exact HC| |].
  { apply emits_with_lock_inner, emits_ingest_tokens. }
  intros _. destruct (forward_to_saved config);
    [exact Hsend|apply emits_silent; [exact HC|reflexivity]].
Qed.

Lemma emits_handler (config : Config) (ev : NewMessage) :
  emits locked_fetches (handler config ev).
Proof.
  destruct closed_locked_fetches as [H0 Happ].
  intro w. unfold handler.
  destruct (emits_handler_body config ev w) as (evs & Ht & H).
  destruct (handler_body config ev w) as [[u|e] w1]; cbn [snd] in *.
  - exists evs. auto.
  - exists (evs ++ [EvLogException e]). cbn. rewrite Ht, app_assoc.
    split; [reflexivity|]. apply Happ; [exact H|split; reflexivity].
Qed.

(** C4 (amended): over any number of turns the monitor loop makes every
    market-cap request with the lock free; the message handler makes
    every one of its market-cap requests while it holds the lock, the
    initial fetch of a new token being part of its locked section.  Both
    leave the lock free. *)
Theorem C4_monitor_fetches_unlocked_handler_locked :
  (forall cycles w,
     exists evs,
       trace (snd (market_cap_monitor cycles w)) = trace w ++ evs
       /\ lock_after false evs = false
       /\ forallb negb (fetches_under_lock false evs) = true)
  /\ (forall config ev w,
        exists evs,
          trace (snd (handler config ev w)) = trace w ++ evs
          /\ lock_after false evs = false
          /\ forallb (fun b : bool => b) (fetches_under_lock false evs) = true).
Proof.
  split.
  - intros cycles w.
    destruct (market_cap_monitor_trace cycles w) as (evs & Ht & Hl & Hf).
    exists evs. auto.
  - intros config ev w.
    destruct (emits_handler config ev w) as (evs & Ht & Hl & Hf).
    exists evs. auto.
Qed.

End LockDiscipline.

(** C4 (counterexample): a message naming the new token ABC reaches the
    handler; its one market-cap request is made between acquiring and
    releasing the lock. *)
Lemma C4_counterexample :
  let w := snd (handler open_config (message_of "$ABC" "t")
                  (fresh_world [reply_market_cap 1000])) in
  trace w
  = [EvAcquire;
     EvHttpGet "https://api.dexscreener.com/latest/dex/search/?q=ABC";
     EvWriteCurrent; EvRelease]
  /\ fetches_under_lock false (trace w) = [true].
Proof. vm_compute. split; reflexivity. Qed.

(** ** The monitor loop and failing fetches (C1) *)

Section MonitorFailures.
Context {float_str : FloatOfStr}.

Lemma dict_get_nonempty (k : string) (d : dict) (v : value) :
  dict_get k d = Some v -> truthy (VDict d) = true.
Proof. destruct d; [discriminate|reflexivity]. Qed.

Lemma truthy_VStr (s : string) : s <> "" -> truthy (VStr s) = true.
Proof.
  intro H. cbn. destruct (String.eqb_spec s ""); [contradiction|reflexivity].
Qed.

(** One turn whose fetch raises: the exception leaves the turn, the
    entry and both files are as before. *)
Lemma monitor_cycle_fetch_raises (w : world) (d : dict) (key : string)
    (e : exn) (rest : list http_reply) :
  holder w = VDict d ->
  dict_get "token" d = Some (VStr key) ->
  key <> "" ->
  network w = HttpFail e :: rest ->
  exists w',
    monitor_cycle w = (Raise e, w')
    /\ holder w' = holder w
    /\ results_file w' = results_file w
    /\ history_file w' = history_file w
    /\ network w' = rest.
Proof.
  intros Hh Ht Hk Hn. destruct w as [h rf hf net nw tr]. cbn in Hh, Hn. subst h net.
  assert (Hg : py_get (VDict d) "token" VNone = Ok (VStr key)).
  { cbn. unfold dict_get_default. rewrite Ht. reflexivity. }
  unfold monitor_cycle, bind, emit, with_lock, get_holder, lift.
  cbn -[truthy py_get fetch_market_cap].
  rewrite (dict_get_nonempty _ _ _ Ht), Hg, (truthy_VStr key Hk).
  cbn -[String.prefix].
  destruct (String.prefix "0x" key); cbn; eexists; repeat split.
Qed.

(** One turn whose fetch finds no pair: the turn ends normally and
    nothing changes. *)
Lemma monitor_cycle_no_pair (w : world) (d doc : dict) (key : string)
    (rest : list http_reply) :
  holder w = VDict d ->
  dict_get "token" d = Some (VStr key) ->
  key <> "" ->
  network w = HttpBody (VDict doc) :: rest ->
  truthy (dict_get_default "pairs" VNone doc) = false ->
  exists w',
    monitor_cycle w = (Ok tt, w')
    /\ holder w' = holder w
    /\ results_file w' = results_file w
    /\ history_file w' = history_file w
    /\ network w' = rest.
Proof.
  intros Hh Ht Hk Hn Hp. destruct w as [h rf hf net nw tr].
  cbn in Hh, Hn. subst h net.
  assert (Hg : py_get (VDict d) "token" VNone = Ok (VStr key)).
  { cbn. unfold dict_get_default. rewrite Ht. reflexivity. }
  unfold monitor_cycle, bind, emit, with_lock, get_holder, lift.
  cbn -[truthy py_get fetch_market_cap].
  rewrite (dict_get_nonempty _ _ _ Ht), Hg, (truthy_VStr key Hk).
  cbn -[String.prefix market_cap_of_document].
  destruct (String.prefix "0x" key);
    unfold _fetch_market_cap_for_address, _fetch_market_cap_for_ticker,
      bind, lift, _http_get_json;
    cbn -[market_cap_of_document];
    rewrite market_cap_of_document_no_pairs by exact Hp;
    cbn; eexists; repeat split.
Qed.

(** C1: when the active entry has a token and the fetch of a turn raises
    (network error, timeout, a body that is not JSON), the entry and both
    files stay as they were, but the exception leaves the [while True]
    loop: the monitor task has ended, however many turns were still to
    come, and the next answer of the API is never asked for. *)
Theorem C1_monitor_ends_on_fetch_exception (w : world) (d : dict)
    (key : string) (e : exn) (rest : list http_reply) (cycles : nat) :
  holder w = VDict d ->
  dict_get "token" d = Some (VStr key) ->
  key <> "" ->
  network w = HttpFail e :: rest ->
  exists w',
    market_cap_monitor (S cycles) w = (Ended e, w')
    /\ holder w' = holder w
    /\ results_file w' = results_file w
    /\ history_file w' = history_file w
    /\ network w' = rest.
Proof.
  intros Hh Ht Hk Hn.
  destruct (monitor_cycle_fetch_raises w d key e rest Hh Ht Hk Hn)
    as (w' & Hc & H).
  exists w'. cbn [market_cap_monitor]. rewrite Hc. auto.
Qed.

End MonitorFailures.

(** C1 (witness): the token ABC is tracked, the first request times out
    and the API would have answered the second. *)
Lemma C1_witness :
  exists w',
    market_cap_monitor 3
      (tracking_world [HttpFail TimeoutError; reply_market_cap 1500])
    = (Ended TimeoutError, w')
    /\ holder w' = VDict (tracked_entry "ABC" 1000)
    /\ results_file w' = written (VDict (tracked_entry "ABC" 1000))
    /\ history_file w' = Missing
    /\ network w' = [reply_market_cap 1500].
Proof.
  apply (C1_monitor_ends_on_fetch_exception
           (tracking_world [HttpFail TimeoutError; reply_market_cap 1500])
           (tracked_entry "ABC" 1000) "ABC" TimeoutError
           [reply_market_cap 1500] 2).
  - reflexivity.
  - reflexivity.
  - discriminate.
  - reflexivity.
Defined.

(** A body that is JSON but not an object ends the task as well, with
    the AttributeError of [data.get]; a document without pairs does not. *)
Example monitor_malformed_body :
  fst (market_cap_monitor 1 (tracking_world [HttpBody (VList [])]))
  = Ended AttributeError.
Proof. reflexivity. Qed.

Example monitor_no_pair_keeps_looping :
  market_cap_monitor 1 (tracking_world [reply_no_pairs])
  = (Looping,
     mkWorld (VDict (tracked_entry "ABC" 1000))
       (written (VDict (tracked_entry "ABC" 1000))) Missing []
       "2026-01-01T00:01:00+00:00"
       [EvSleep; EvAcquire; EvRelease;
        EvHttpGet "https://api.dexscreener.com/latest/dex/search/?q=ABC"]).
Proof. reflexivity. Qed.

(** ** The first observation of an entry without market cap (C2) *)

(** C2: on the entry the handler creates when its own fetch found no
    market cap, where [initial_market_cap] and [highest_market_cap] are
    both present and null, the update stores the observation as
    [initial_market_cap] and then raises TypeError at
    [market_cap > highest_market_cap]: [highest_market_cap] and
    [current_market_cap] stay null, nothing is persisted, and the monitor
    task ends. *)
Theorem C2_first_observation_raises_TypeError :
  (forall (token_key time_posted : string) (market_cap : Q) (pair_url : value)
          (ts : string),
     exists entry',
       apply_observation market_cap pair_url ts (new_entry token_key time_posted)
       = (Raise TypeError, entry')
       /\ dict_get "initial_market_cap" entry' = Some (VNum market_cap)
       /\ dict_get "highest_market_cap" entry' = Some VNone
       /\ dict_get "current_market_cap" entry' = Some VNone)
  /\ (let w1 := snd (handler open_config (message_of "$ABC" "t")
                       (fresh_world [reply_no_pairs; reply_market_cap 1000])) in
      let r := market_cap_monitor 1 w1 in
      holder w1 = VDict (new_entry "ABC" "t")
      /\ fst r = Ended TypeError
      /\ results_file (snd r) = written (VDict (new_entry "ABC" "t"))
      /\ network (snd r) = []).
Proof.
  split.
  - intros. eexists. cbn. repeat split.
  - vm_compute. repeat split.
Qed.

(** ** Ingestion when a fetch raises (C5) *)

(** C5: three messages name the distinct tokens AAA, BBB and CCC; the
    request made for BBB fails.  After the second message the active
    entry is still the one of AAA although that entry has been archived,
    and after the third it has been archived a second time. *)
Theorem C5_failed_fetch_archives_twice :
  let w1 := snd (handler open_config (message_of "$AAA" "t1")
                   (fresh_world [reply_market_cap 1000; HttpFail URLError;
                                 reply_market_cap 3000])) in
  let w2 := snd (handler open_config (message_of "$BBB" "t2") w1) in
  let w3 := snd (handler open_config (message_of "$CCC" "t3") w2) in
  let aaa := sort_keys (holder w1) in
  py_get (holder w1) "token" VNone = Ok (VStr "AAA")
  /\ py_get (holder w2) "token" VNone = Ok (VStr "AAA")
  /\ _load_history (history_file w2) = Ok [aaa]
  /\ py_get (holder w3) "token" VNone = Ok (VStr "CCC")
  /\ _load_history (history_file w3) = Ok [aaa; aaa]
  /\ trace w2 = trace w1 ++ [EvAcquire; EvWriteHistory;
                             EvHttpGet "https://api.dexscreener.com/latest/dex/search/?q=BBB";
                             EvRelease; EvLogException URLError].
Proof. vm_compute. repeat split. Qed.

(** ** Rounding and percentages *)

Lemma round_half_even_bounds (q : Q) :
  let z := round_half_even q in
  let d := Z.pos (Qden q) in
  let n := Qnum q in
  (2 * d * z - d <= 2 * n <= 2 * d * z + d)%Z
  /\ ((2 * n = 2 * d * z + d)%Z -> Z.even z = true)
  /\ ((2 * n = 2 * d * z - d)%Z -> Z.even z = true).
Proof.
  cbv zeta. unfold round_half_even.
  set (n := Qnum q). set (d := Z.pos (Qden q)).
  assert (Hd : (0 < d)%Z) by (unfold d; lia).
  pose proof (Z.div_mod n d ltac:(lia)) as Hdm.
  pose proof (Z.mod_pos_bound n d Hd) as Hr.
  set (fl := (n / d)%Z) in *. set (r := (n mod d)%Z) in *.
  destruct (Z.compare_spec (2 * r) d) as [E|E|E].
  - destruct (Z.even fl) eqn:Ev.
    + repeat split; try lia; intros; assumption.
    + assert (Z.even (fl + 1) = true).
      { replace (fl + 1)%Z with (Z.succ fl) by lia. rewrite Z.even_succ.
        rewrite <- Z.negb_even, Ev. reflexivity. }
      repeat split; try lia; intros; assumption.
  - repeat split; intros; lia.
  - repeat split; intros; lia.
Qed.

Lemma round_half_even_mono (q1 q2 : Q) :
  (q1 <= q2)%Q -> (round_half_even q1 <= round_half_even q2)%Z.
Proof.
  intro H. unfold Qle in H.
  destruct (round_half_even_bounds q1) as ([L1 U1] & D1 & Up1).
  destruct (round_half_even_bounds q2) as ([L2 U2] & D2 & Up2).
  set (z1 := round_half_even q1) in *. set (z2 := round_half_even q2) in *.
  set (n1 := Qnum q1) in *. set (n2 := Qnum q2) in *.
  assert (H1 : (0 < Z.pos (Qden q1))%Z) by lia.
  assert (H2 : (0 < Z.pos (Qden q2))%Z) by lia.
  set (d1 := Z.pos (Qden q1)) in *. set (d2 := Z.pos (Qden q2)) in *.
  destruct (Z_le_gt_dec z1 z2) as [|G]; [assumption|exfalso].
  assert (A : ((2 * d1 * z1 - d1) * d2 <= 2 * n1 * d2)%Z) by nia.
  assert (B : (2 * n2 * d1 <= (2 * d2 * z2 + d2) * d1)%Z) by nia.
  assert (C : (d1 * d2 * (z1 - z2 - 1) <= 0)%Z) by nia.
  assert (Z1 : z1 = (z2 + 1)%Z) by nia.
  assert (E1 : (2 * n1 = 2 * d1 * z1 - d1)%Z) by nia.
  assert (E2 : (2 * n2 = 2 * d2 * z2 + d2)%Z) by nia.
  specialize (Up1 E1). specialize (D2 E2).
  rewrite Z1 in Up1. replace (z2 + 1)%Z with (Z.succ z2) in Up1 by lia.
  rewrite Z.even_succ, <- Z.negb_even, D2 in Up1. discriminate.
Qed.

Lemma py_round_mono (q1 q2 : Q) (nd : nat) :
  (q1 <= q2)%Q -> (py_round q1 nd <= py_round q2 nd)%Q.
Proof.
  intro H. unfold py_round.
  set (scale := (10 ^ Z.of_nat nd)%Z).
  assert (Hs : (0 < scale)%Z) by (apply Z.pow_pos_nonneg; lia).
  assert (Hm : (q1 * inject_Z scale <= q2 * inject_Z scale)%Q).
  { apply Qmult_le_compat_r; [exact H|].
    unfold Qle. cbn. lia. }
  apply round_half_even_mono in Hm.
  unfold Qle. cbn [Qnum Qden]. nia.
Qed.

Lemma round_half_even_zero (q : Q) : (q == 0)%Q -> round_half_even q = 0%Z.
Proof.
  unfold Qeq. cbn. intro H.
  assert (Hn : Qnum q = 0%Z) by lia.
  unfold round_half_even. rewrite Hn. cbn.
  reflexivity.
Qed.

Lemma py_round_zero (q : Q) (nd : nat) : (q == 0)%Q -> (py_round q nd == 0)%Q.
Proof.
  intro H. unfold py_round.
  rewrite round_half_even_zero; [reflexivity|].
  rewrite H. ring.
Qed.

Lemma py_round_nonpos (q : Q) (nd : nat) :
  (q <= 0)%Q -> (py_round q nd <= 0)%Q.
Proof.
  intro H. apply (py_round_mono _ _ nd) in H.
  rewrite (py_round_zero 0 nd) in H; [exact H|reflexivity].
Qed.


Lemma percent_mono (x y i : Q) :
  (0 < i)%Q -> (x <= y)%Q -> (percent x i <= percent y i)%Q.
Proof.
  intros Hi Hxy. unfold percent.
  destruct (Qeq_bool i 0) eqn:E; [apply Qle_refl|].
  apply Qmult_le_compat_r; [|discriminate].
  unfold Qdiv. apply Qmult_le_compat_r; [lra|].
  apply Qlt_le_weak, Qinv_lt_0_compat, Hi.
Qed.

Lemma percent_nonpos (x i : Q) :
  (i <= 0)%Q -> (i <= x)%Q -> (percent x i <= 0)%Q.
Proof.
  intros Hi Hx. unfold percent.
  destruct (Qeq_bool i 0) eqn:E; [apply Qle_refl|].
  assert (Hlt : (i < 0)%Q).
  { apply Qle_lt_or_eq in Hi as [|Heq]; [assumption|].
    apply Qeq_bool_iff in Heq. congruence. }
  assert (Hinv : (/ i < 0)%Q).
  { assert (H0 : (0 < / - i)%Q) by (apply Qinv_lt_0_compat; lra).
    assert (He : (/ - i == - / i)%Q) by (field; lra).
    rewrite He in H0. lra. }
  unfold Qdiv. 
  assert (((x - i) * / i) <= 0)%Q by nra.
  lra.
Qed.

Lemma dict_get_set_eq (k : string) (v : value) (d : dict) :
  dict_get k (dict_set k v d) = Some v.
Proof.
  induction d as [|[k' v'] d IH]; cbn.
  - rewrite String.eqb_refl. reflexivity.
  - destruct (String.eqb k' k) eqn:E; cbn.
    + rewrite String.eqb_refl. reflexivity.
    + rewrite E. exact IH.
Qed.

Lemma dict_get_set_neq (k k' : string) (v : value) (d : dict) :
  String.eqb k' k = false ->
  dict_get k (dict_set k' v d) = dict_get k d.
Proof.
  intro N. induction d as [|[k0 v0] d IH]; cbn.
  - rewrite N. reflexivity.
  - destruct (String.eqb k0 k') eqn:E; cbn.
    + apply String.eqb_eq in E. subst k0. rewrite N. reflexivity.
    + destruct (String.eqb k0 k); [reflexivity|exact IH].
Qed.

Lemma percent_over_num (x i : Q) :
  percent_over (VNum x) (VNum i) = Ok (percent x i).
Proof.
  unfold percent_over, percent. cbn. destruct (Qeq_bool i 0); reflexivity.
Qed.

Ltac dict_simpl :=
  repeat (first
    [ rewrite dict_get_set_eq
    | rewrite dict_get_set_neq by reflexivity ]).

(** The update on an entry whose caps and percentage are numbers. *)
Lemma apply_observation_numeric (mc : Q) (url : value) (ts : string)
    (d : dict) (i h p : Q) :
  dict_get "initial_market_cap" d = Some (VNum i) ->
  dict_get "highest_market_cap" d = Some (VNum h) ->
  dict_get "highest_percent_increase" d = Some (VNum p) ->
  let h' := if Qltb h mc then mc else h in
  let hp := py_round (percent h' i) 4 in
  exists d',
    apply_observation mc url ts d = (Ok tt, d')
    /\ dict_get "initial_market_cap" d' = Some (VNum i)
    /\ dict_get "highest_market_cap" d' = Some (VNum h')
    /\ dict_get "current_market_cap" d' = Some (VNum mc)
    /\ dict_get "current_percentage" d'
       = Some (VStr (_format_percent (py_round (percent mc i) 4)))
    /\ dict_get "highest_percent_increase" d'
       = Some (VNum (if Qltb p hp then hp else p))
    /\ dict_get "reached_50" d' = Some (VBool (Qle_bool 50 hp)).
Proof.
  intros Hi Hh Hp. cbv zeta.
  unfold apply_observation, bind, entry_get, entry_set, lift, ret.
  cbv beta iota. unfold dict_get_default at 1 2 3. rewrite Hi.
  cbn [is_none py_or truthy]. rewrite Hh. cbn [float_gt as_number rbind].
  cbv beta iota.
  destruct (Qltb h mc) eqn:E; cbv beta iota;
    rewrite ?percent_over_num; unfold dict_get_default;
    rewrite ?Hh; rewrite ?percent_over_num; dict_simpl; rewrite ?Hp;
    unfold py_max, float_gt; cbn [as_number rbind];
    destruct (truthy url); eexists; (split; [reflexivity|]);
    dict_simpl; rewrite ?Hi, ?Hh;
    destruct (Qltb p _); repeat split; reflexivity.
Qed.

Lemma Qle_bool_eq (a b c : Q) :
  ((a <= b)%Q <-> (a <= c)%Q) -> Qle_bool a b = Qle_bool a c.
Proof.
  intro H. apply eq_true_iff_eq. rewrite !Qle_bool_iff. exact H.
Qed.

(** Raising [highest_market_cap] never lowers the rounded percentage
    where it matters: below an initial cap that is not positive the
    percentage is at most 0. *)
Lemma rounded_percent_grows (i h h' : Q) :
  (i <= h)%Q -> (h <= h')%Q ->
  (py_round (percent h i) 4 <= py_round (percent h' i) 4)%Q
  \/ (py_round (percent h i) 4 <= 0)%Q.
Proof.
  intros Hih Hhh.
  destruct (Qlt_le_dec 0 i) as [Hpos|Hneg].
  - left. apply py_round_mono, percent_mono; assumption.
  - right. apply py_round_nonpos, percent_nonpos; assumption.
Qed.

Lemma apply_observation_tracked (mc : Q) (url : value) (ts : string) (d : dict) :
  tracked d ->
  exists d',
    apply_observation mc url ts d = (Ok tt, d')
    /\ tracked d'
    /\ (exists p,
          dict_get "highest_percent_increase" d' = Some (VNum p)
          /\ dict_get "reached_50" d' = Some (VBool (Qle_bool 50 p)))
    /\ (dict_get "reached_50" d = Some (VBool true) ->
        dict_get "reached_50" d' = Some (VBool true)).
Proof.
  intros (i & h & p & r & Hi & Hh & Hp & Hr & Hih & Hbound & Hreach).
  destruct (apply_observation_numeric mc url ts d i h p Hi Hh Hp)
    as (d' & Hrun & Hi' & Hh' & _ & _ & Hp' & Hr').
  set (h' := if Qltb h mc then mc else h) in *.
  set (hp := py_round (percent h i) 4) in *.
  set (hp' := py_round (percent h' i) 4) in *.
  assert (Hhh : (h <= h')%Q).
  { unfold h'. destruct (Qltb h mc) eqn:E; [|apply Qle_refl].
    apply Qltb_true in E. lra. }
  assert (Hgrow : (hp <= hp')%Q \/ (hp <= 0)%Q)
    by (apply rounded_percent_grows; assumption).
  assert (Hbound' : (p <= 0)%Q \/ (p <= hp')%Q).
  { destruct Hbound as [|Hb]; [left; assumption|].
    destruct Hgrow; [right|left]; lra. }
  exists d'. split; [exact Hrun|]. split; [|split].
  - exists i, h', (if Qltb p hp' then hp' else p), (Qle_bool 50 hp').
    repeat split; try assumption.
    + lra.
    + destruct (Qltb p hp') eqn:E; [right; apply Qle_refl|exact Hbound'].
    + intro T. apply Qle_bool_iff in T. exact T.
  - exists (if Qltb p hp' then hp' else p). split; [exact Hp'|].
    rewrite Hr'. f_equal. f_equal.
    destruct (Qltb p hp') eqn:E; [reflexivity|].
    apply Qltb_false in E. apply Qle_bool_eq. split; intro H50; [lra|].
    destruct Hbound'; lra.
  - intro T. rewrite Hr in T. injection T as ->.
    specialize (Hreach eq_refl). rewrite Hr'. f_equal. f_equal.
    apply Qle_bool_iff. destruct Hgrow; lra.
Qed.

(** An entry that a fetch has just initialised is tracked. *)
Lemma refreshed_entry_tracked {float_str : FloatOfStr}
    (token_key : value) (entry entry' : dict) (w w' : world) :
  _refresh_entry_market_cap token_key entry w = (Ok entry', w') ->
  entry' = entry \/ tracked entry'.
Proof.
  unfold _refresh_entry_market_cap, bind.
  destruct (fetch_market_cap token_key w) as [[[mc url]|e] w1]; [|discriminate].
  cbn [fst snd]. destruct mc as [mc|].
  - unfold _utc_now_iso, ret. intros [= <- _]. right.
    exists mc, mc, 0%Q, false.
    destruct (truthy url); dict_simpl; repeat split;
      try apply Qle_refl; try (left; apply Qle_refl); discriminate.
  - unfold ret. intros [= <- _]. left. reflexivity.
Qed.

(** ** [reached_50] under observation (C3) *)

(** C3 (amended): on an active entry that is tracked (its caps are
    numbers, its stored [highest_percent_increase] does not exceed the
    rounded percentage of [highest_market_cap] over [initial_market_cap],
    and [reached_50] is set only when that percentage is at least 50, as
    holds for every entry a successful fetch has initialised), every
    sequence of observations is applied without an exception, keeps the
    entry tracked, leaves [reached_50] equal to
    [highest_percent_increase >= 50.0] after each observation, and never
    turns a true [reached_50] back to false. *)
Theorem C3_reached_50_on_tracked_entries (d : dict) :
  tracked d ->
  forall obs : list (Q * value * string),
  exists d',
    apply_observations obs d = (Ok tt, d')
    /\ tracked d'
    /\ (obs <> [] ->
        exists p,
          dict_get "highest_percent_increase" d' = Some (VNum p)
          /\ dict_get "reached_50" d' = Some (VBool (Qle_bool 50 p)))
    /\ (dict_get "reached_50" d = Some (VBool true) ->
        dict_get "reached_50" d' = Some (VBool true)).
Proof.
  intros Ht obs. revert d Ht.
  induction obs as [|[[mc url] ts] rest IH]; intros d Ht.
  - exists d. cbn. repeat split; try assumption; try tauto.
  - destruct (apply_observation_tracked mc url ts d Ht)
      as (d1 & Hrun1 & Ht1 & Hp1 & Hr1).
    destruct (IH d1 Ht1) as (d' & Hrun & Ht' & Hp' & Hr').
    exists d'. cbn [apply_observations]. unfold bind. rewrite Hrun1.
    split; [exact Hrun|]. split; [exact Ht'|]. split.
    + intros _. destruct rest as [|o rest'].
      * cbn in Hrun. injection Hrun as <-. exact Hp1.
      * apply Hp'. discriminate.
    + intro T. apply Hr', Hr1, T.
Qed.

(** C3 (witness): the entry of ABC first seen at 1000, then observed at
    1500 and at 1200. *)
Lemma C3_witness :
  tracked (tracked_entry "ABC" 1000)
  /\ exists d',
       apply_observations
         [(1500%Q, VNone, "t1"); (1200%Q, VNone, "t2")] (tracked_entry "ABC" 1000)
       = (Ok tt, d')
       /\ tracked d'.
Proof.
  assert (T : tracked (tracked_entry "ABC" 1000)).
  { exists 1000%Q, 1000%Q, 0%Q, false. cbn.
    repeat split; try discriminate. left. discriminate. }
  split; [exact T|].
  destruct (C3_reached_50_on_tracked_entries _ T
              [(1500%Q, VNone, "t1"); (1200%Q, VNone, "t2")])
    as (d' & Hrun & Ht' & _).
  exists d'. split; assumption.
Defined.

(** C3 (counterexample): the current-state file holds an entry whose
    [highest_percent_increase] is 80 while both market caps are 1000.
    It is loaded at start-up, the monitor observes 1000 once, and the
    entry then has [highest_percent_increase] 80, which is at least 50,
    with [reached_50] false: the flag is recomputed from
    [highest_market_cap], not from the stored percentage, and a true
    flag has reverted. *)
Lemma C3_counterexample :
  let w0 := mkWorld VNone (Parsed (VDict stale_entry)) Missing
              [reply_market_cap 1000] "t2" [] in
  let w1 := snd (load_and_migrate w0) in
  let r := market_cap_monitor 1 w1 in
  holder w1 = VDict stale_entry
  /\ fst r = Looping
  /\ py_get (holder (snd r)) "highest_percent_increase" VNone = Ok (VNum 80)
  /\ py_get (holder (snd r)) "reached_50" VNone = Ok (VBool false)
  /\ Qle_bool 50 80 = true.
Proof. vm_compute. repeat split. Qed.

(** ** [current_percentage] (C9) *)


Lemma list_ascii_of_string_app (a b : string) :
  list_ascii_of_string (a ++ b)
  = (list_ascii_of_string a ++ list_ascii_of_string b)%list.
Proof. induction a as [|c a IH]; cbn; [reflexivity|]. f_equal. exact IH. Qed.

Lemma string_of_uint_digits (u : Decimal.uint) :
  forallb is_digit (list_ascii_of_string (NilEmpty.string_of_uint u)) = true.
Proof. induction u; cbn; try reflexivity; exact IHu. Qed.








(** The scenario of the specification: first seen at 1000, observed at
    1500 and then at 1200. *)
Example scenario_1000_1500_1200 :
  let d1 := snd (apply_observation 1500 VNone "t2" (tracked_entry "ABC" 1000)) in
  let d2 := snd (apply_observation 1200 VNone "t3" d1) in
  dict_get "current_percentage" d1 = Some (VStr "+50.00%")
  /\ dict_get "highest_percent_increase" d1 = Some (VNum (500000 # 10000))
  /\ dict_get "reached_50" d1 = Some (VBool true)
  /\ dict_get "current_percentage" d2 = Some (VStr "+20.00%")
  /\ dict_get "highest_market_cap" d2 = Some (VNum 1500)
  /\ dict_get "highest_percent_increase" d2 = Some (VNum (500000 # 10000))
  /\ dict_get "reached_50" d2 = Some (VBool true).
Proof. vm_compute. repeat split. Qed.

(** ** Written JSON is in normal form *)

Lemma value_ind_nested (P : value -> Prop) :
  P VNone ->
  (forall b, P (VBool b)) ->
  (forall q, P (VNum q)) ->
  (forall s, P (VStr s)) ->
  (forall l, Forall P l -> P (VList l)) ->
  (forall d, Forall (fun kv => P (snd kv)) d -> P (VDict d)) ->
  forall v, P v.
Proof.
  intros HN HB HQ HS HL HD.
  fix IH 1. intros [| b | q | s | l | d].
  - exact HN.
  - apply HB.
  - apply HQ.
  - apply HS.
  - apply HL. induction l as [|x l IHl]; constructor; [apply IH|exact IHl].
  - apply HD. induction d as [|[k x] d IHd]; constructor; [apply IH|exact IHd].
Qed.

Lemma insert_by_key_sorted (kv : string * value) (d : dict) :
  keys_sorted d -> keys_sorted (insert_by_key kv d).
Proof.
  induction d as [|kv1 d IH]; intro Hs; [exact I|].
  cbn [insert_by_key].
  destruct (String.leb (fst kv) (fst kv1)) eqn:E.
  - cbn. split; [exact E|exact Hs].
  - assert (E' : String.leb (fst kv1) (fst kv) = true).
    { destruct (String.leb_total (fst kv) (fst kv1)); congruence. }
    destruct d as [|kv2 d].
    + cbn. auto.
    + cbn in Hs. destruct Hs as [H12 Hs]. specialize (IH Hs).
      cbn [insert_by_key] in IH |- *.
      destruct (String.leb (fst kv) (fst kv2)); cbn; cbn in IH; auto.
Qed.

Lemma sort_dict_sorted (d : dict) : keys_sorted (sort_dict d).
Proof.
  induction d as [|kv d IH]; [exact I|]. apply insert_by_key_sorted, IH.
Qed.

Lemma sort_dict_of_sorted (d : dict) : keys_sorted d -> sort_dict d = d.
Proof.
  induction d as [|kv d IH]; intro Hs; [reflexivity|].
  cbn [sort_dict fold_right]. fold (sort_dict d).
  destruct d as [|kv1 d]; [reflexivity|].
  cbn in Hs. destruct Hs as [H01 Hs]. rewrite (IH Hs).
  cbn [insert_by_key]. rewrite H01. reflexivity.
Qed.

Lemma insert_by_key_map (f : string * value -> string * value)
    (kv : string * value) (d : dict) :
  (forall x, fst (f x) = fst x) ->
  map f (insert_by_key kv d) = insert_by_key (f kv) (map f d).
Proof.
  intro Hf. induction d as [|kv1 d IH]; [reflexivity|].
  cbn [insert_by_key map]. rewrite !Hf.
  destruct (String.leb (fst kv) (fst kv1)); cbn [map]; [reflexivity|].
  f_equal. exact IH.
Qed.

Lemma sort_dict_map (f : string * value -> string * value) (d : dict) :
  (forall x, fst (f x) = fst x) ->
  map f (sort_dict d) = sort_dict (map f d).
Proof.
  intro Hf. induction d as [|kv d IH]; [reflexivity|].
  cbn [sort_dict fold_right map]. fold (sort_dict d). fold (sort_dict (map f d)).
  rewrite insert_by_key_map by exact Hf. f_equal. exact IH.
Qed.

(** Writing what was read from a written file changes nothing. *)
Lemma sort_keys_idempotent (v : value) : sort_keys (sort_keys v) = sort_keys v.
Proof.
  induction v as [| b | q | s | l IH | d IH] using value_ind_nested;
    try reflexivity.
  - cbn [sort_keys]. f_equal. rewrite map_map.
    apply map_ext_in. intros x Hx. rewrite Forall_forall in IH. exact (IH x Hx).
  - cbn [sort_keys]. f_equal.
    set (f := fun kv : string * value => (fst kv, sort_keys (snd kv))).
    rewrite (sort_dict_map f) by reflexivity.
    rewrite (sort_dict_of_sorted (sort_dict _)) by apply sort_dict_sorted.
    f_equal. rewrite map_map. apply map_ext_in. intros [k x] Hx.
    rewrite Forall_forall in IH. unfold f. cbn. f_equal. exact (IH (k, x) Hx).
Qed.

(** ** Ingestion of distinct tokens when every request is answered *)

Section Ingestion.
Context {float_str : FloatOfStr}.

(** One token that is not the active one, its request answered: the
    previous entry, if there is one, is appended to the history, and the
    new entry becomes the active one and is saved. *)
Lemma ingest_token_new (time_posted token_key : string) (w : world)
    (r : http_reply) (rest : list http_reply) :
  active_token_not_in (holder w) [token_key] ->
  network w = r :: rest ->
  benign_reply r = true ->
  exists entry w',
    ingest_token time_posted token_key w = (Ok tt, w')
    /\ holder w' = VDict entry
    /\ dict_get "token" entry = Some (VStr token_key)
    /\ network w' = rest
    /\ results_file w' = written (VDict entry)
    /\ history_file w'
       = (if truthy (holder w)
          then written (VList (history_of w ++ [holder w]))
          else history_file w).
Proof.
  intros Hact Hnet Hben.
  destruct w as [h rf hf net nw tr]. cbn [holder network] in *. subst net.
  destruct r as [e|data]; [discriminate|]. cbn [benign_reply] in Hben.
  destruct (market_cap_of_document data) as [res|e] eqn:Hdoc; [|discriminate].
  assert (Hfetch : forall w0,
            network w0 = HttpBody data :: rest ->
            exists tr',
              fetch_market_cap (VStr token_key) w0
              = (Ok res, mkWorld (holder w0) (results_file w0) (history_file w0)
                           rest (now w0) tr')).
  { intros w0 Hn. unfold fetch_market_cap, _fetch_market_cap_for_address,
      _fetch_market_cap_for_ticker, bind, _http_get_json, lift.
    destruct (String.prefix "0x" token_key);
      cbn [network add_event holder results_file history_file now trace];
      rewrite Hn, Hdoc; eexists; reflexivity. }
  unfold ingest_token, bind, get_holder, lift, ret.
  cbn [holder].
  destruct Hact as [Hfalsy|(d & -> & Htruthy & Hdiff)].
  - rewrite Hfalsy. cbv beta iota.
    unfold _refresh_entry_market_cap, bind.
    destruct (Hfetch (mkWorld h rf hf (HttpBody data :: rest) nw tr) eq_refl)
      as (tr' & ->).
    cbn [holder results_file history_file now].
    destruct res as [[mc|] url]; cbn [fst snd];
      unfold _utc_now_iso, ret, set_holder, _save_current, add_event;
      cbn [holder results_file history_file network now trace];
      eexists; eexists; (split; [reflexivity|]);
      cbn [holder results_file history_file network now trace];
      repeat split; try reflexivity;
      destruct (truthy url); reflexivity.
  - rewrite Htruthy. cbn [py_get]. cbv beta iota.
    rewrite (Hdiff token_key (or_introl eq_refl)). cbv beta iota.
    unfold _append_history, history_of.
    cbn [history_file holder results_file network now trace].
    destruct (_load_history_total hf) as [hist ->].
    unfold _refresh_entry_market_cap, bind.
    match goal with
    | |- context [fetch_market_cap (VStr token_key) ?w0] =>
        destruct (Hfetch w0 eq_refl) as (tr' & ->)
    end.
    cbn [holder results_file history_file now add_event network trace].
    destruct res as [[mc|] url]; cbn [fst snd];
      unfold _utc_now_iso, ret, set_holder, _save_current, add_event;
      cbn [holder results_file history_file network now trace];
      eexists; eexists; (split; [reflexivity|]);
      cbn [holder results_file history_file network now trace];
      repeat split; try reflexivity;
      destruct (truthy url); reflexivity.
Qed.

Lemma history_of_written (l : list value) (w : world) :
  history_file w = written (VList l) -> history_of w = map sort_keys l.
Proof. unfold history_of. intros ->. reflexivity. Qed.

Lemma history_of_normal (w : world) :
  history_written (history_file w) ->
  map sort_keys (history_of w) = history_of w.
Proof.
  intros [H|[l H]].
  - unfold history_of. rewrite H. reflexivity.
  - rewrite (history_of_written l w H), map_map.
    apply map_ext. intro v. apply sort_keys_idempotent.
Qed.

Lemma last_default_irrelevant {A} (l : list A) (a b : A) :
  l <> [] -> last l a = last l b.
Proof.
  induction l as [|x l IH]; [congruence|]. intros _.
  destruct l as [|y l]; [reflexivity|].
  change (last (x :: y :: l) a) with (last (y :: l) a).
  change (last (x :: y :: l) b) with (last (y :: l) b).
  apply IH. discriminate.
Qed.

(** Ingestion of distinct tokens, none of them the active one, every
    request answered: the loop ends normally, the active entry is the
    one created for the last token, and the history has grown by the
    entry that was active before and by the entries of all tokens but
    the last, each once and in the order of the tokens. *)
Theorem ingest_distinct_tokens (time_posted : string) (tokens : list string) :
  forall w,
    NoDup tokens ->
    active_token_not_in (holder w) tokens ->
    history_written (history_file w) ->
    (List.length tokens <= List.length (network w))%nat ->
    forallb benign_reply (firstn (List.length tokens) (network w)) = true ->
    exists (entries : list dict) (w' : world),
      ingest_tokens time_posted tokens w = (Ok tt, w')
      /\ Forall2 (fun t e => dict_get "token" e = Some (VStr t)) tokens entries
      /\ holder w' = last (map VDict entries) (holder w)
      /\ history_of w'
         = map sort_keys (history_of w ++ archived (holder w) entries)
      /\ history_written (history_file w').
Proof.
  induction tokens as [|t rest IH]; intros w Hnd Hact Hhist Hlen Hben.
  - exists [], w.
    split; [reflexivity|]. split; [constructor|]. split; [reflexivity|].
    split; [|exact Hhist].
    cbn [archived]. rewrite app_nil_r. symmetry.
    apply history_of_normal, Hhist.
  - destruct (network w) as [|r net] eqn:Hnet; [cbn in Hlen; lia|].
    cbn [List.length firstn forallb] in Hlen, Hben.
    apply andb_true_iff in Hben as [Hr Hben].
    assert (Hact1 : active_token_not_in (holder w) [t]).
    { destruct Hact as [Hf|(d & Hd & Ht & Hdiff)]; [left; exact Hf|].
      right. exists d. repeat split; try assumption.
      intros t' [<-|[]]. apply Hdiff. left. reflexivity. }
    destruct (ingest_token_new time_posted t w r net Hact1 Hnet Hr)
      as (e1 & w1 & Hrun1 & Hh1 & Htok1 & Hnet1 & _ & Hhf1).
    assert (Hhist1 : history_written (history_file w1)).
    { rewrite Hhf1. destruct (truthy (holder w)); [right; eauto|exact Hhist]. }
    assert (Hof1 : history_of w1
                   = map sort_keys
                       (history_of w
                        ++ (if truthy (holder w) then [holder w] else []))).
    { destruct (truthy (holder w)) eqn:Etr.
      - apply history_of_written. exact Hhf1.
      - rewrite app_nil_r, (history_of_normal w Hhist).
        unfold history_of. rewrite Hhf1. reflexivity. }
    apply NoDup_cons_iff in Hnd as [Hnotin Hnd].
    assert (Hact' : active_token_not_in (holder w1) rest).
    { right. exists e1. rewrite Hh1. split; [reflexivity|]. split.
      - apply (dict_get_nonempty "token" e1 (VStr t)), Htok1.
      - intros t' Hin. unfold dict_get_default. rewrite Htok1. cbn.
        apply String.eqb_neq. intros ->. exact (Hnotin Hin). }
    destruct (IH w1 Hnd Hact' Hhist1) as (es & w' & Hrun & Hf2 & Hh' & Hof' & Hw').
    { rewrite Hnet1. lia. }
    { rewrite Hnet1. exact Hben. }
    exists (e1 :: es), w'.
    split.
    { cbn [ingest_tokens]. unfold bind. rewrite Hrun1. exact Hrun. }
    split; [constructor; assumption|].
    split.
    { rewrite Hh', Hh1. cbn [map]. destruct es as [|e2 es]; [reflexivity|].
      change (last (VDict e1 :: map VDict (e2 :: es)) (holder w))
        with (last (map VDict (e2 :: es)) (holder w)).
      apply last_default_irrelevant. discriminate. }
    split; [|exact Hw'].
    rewrite Hof', Hof1, Hh1.
    assert (Harch : archived (VDict e1) es = removelast (map VDict (e1 :: es))).
    { unfold archived. destruct es as [|e2 es]; [reflexivity|].
      rewrite (dict_get_nonempty "token" e1 (VStr t) Htok1). reflexivity. }
    rewrite Harch. cbn [archived].
    rewrite !map_app, !map_map.
    rewrite !(map_ext _ sort_keys sort_keys_idempotent).
    rewrite app_assoc. reflexivity.
Qed.

End Ingestion.

(** A run of three distinct tokens on a fresh process. *)
Lemma ingest_distinct_tokens_witness :
  exists (entries : list dict) (w' : world),
    ingest_tokens "t" ["AAA"; "BBB"; "CCC"]
      (fresh_world [reply_market_cap 1000; reply_no_pairs; reply_market_cap 3000])
    = (Ok tt, w')
    /\ Forall2 (fun t e => dict_get "token" e = Some (VStr t))
         ["AAA"; "BBB"; "CCC"] entries
    /\ holder w' = last (map VDict entries) VNone
    /\ history_of w' = map sort_keys ([] ++ archived VNone entries)
    /\ history_written (history_file w').
Proof.
  apply (ingest_distinct_tokens "t" ["AAA"; "BBB"; "CCC"]
           (fresh_world [reply_market_cap 1000; reply_no_pairs;
                         reply_market_cap 3000])).
  - repeat constructor; cbn; intuition discriminate.
  - left. reflexivity.
  - left. reflexivity.
  - cbn. lia.
  - reflexivity.
Defined.

(** ** Further properties of the lifecycle *)

Section Lifecycle_properties.
Context {float_str : FloatOfStr}.

(** A token that is already the active one: the loop body does nothing,
    no history record, no request, no write. *)
Theorem ingest_same_token_is_noop (time_posted token_key : string)
    (w : world) (d : dict) :
  holder w = VDict d ->
  dict_get "token" d = Some (VStr token_key) ->
  ingest_token time_posted token_key w = (Ok tt, w).
Proof.
  intros Hh Ht. unfold ingest_token, bind, get_holder, lift, ret.
  rewrite Hh, (dict_get_nonempty _ _ _ Ht). cbn [py_get].
  unfold dict_get_default. rewrite Ht. cbn [eq_str].
  rewrite String.eqb_refl. reflexivity.
Qed.

(** A fetch that returns after the active token has changed: the locked
    update leaves the holder and both files as they are. *)
Theorem monitor_update_skips_replaced_token (key : string) (market_cap : Q)
    (pair_url : value) (w : world) (d : dict) :
  holder w = VDict d ->
  eq_str (dict_get_default "token" VNone d) key = false ->
  exists w',
    monitor_update key market_cap pair_url w = (Ok tt, w')
    /\ holder w' = holder w
    /\ results_file w' = results_file w
    /\ history_file w' = history_file w
    /\ trace w' = trace w ++ [EvAcquire; EvRelease].
Proof.
  intros Hh Ht. destruct w as [h rf hf net nw tr]. cbn [holder] in Hh. subst h.
  unfold monitor_update, with_lock, bind, get_holder, lift, ret.
  cbn [holder add_event results_file history_file network now trace py_get].
  destruct d as [|kv d'].
  - eexists. split; [reflexivity|].
    repeat split; cbn; rewrite <- ?app_assoc; reflexivity.
  - cbn [truthy negb]. rewrite Ht. cbn [negb].
    eexists. split; [reflexivity|].
    repeat split; cbn; rewrite <- ?app_assoc; reflexivity.
Qed.

End Lifecycle_properties.

(** The token ABC is named again while it is the active one. *)
Lemma ingest_same_token_is_noop_witness :
  ingest_token "t9" "ABC" (tracking_world [reply_market_cap 1500])
  = (Ok tt, tracking_world [reply_market_cap 1500]).
Proof.
  apply (ingest_same_token_is_noop "t9" "ABC"
           (tracking_world [reply_market_cap 1500]) (tracked_entry "ABC" 1000));
    reflexivity.
Defined.

(** A market cap fetched for XYZ arrives while ABC is the active token. *)
Lemma monitor_update_skips_replaced_token_witness :
  exists w',
    monitor_update "XYZ" 5000 VNone (tracking_world []) = (Ok tt, w')
    /\ holder w' = holder (tracking_world [])
    /\ results_file w' = results_file (tracking_world [])
    /\ history_file w' = history_file (tracking_world [])
    /\ trace w' = trace (tracking_world []) ++ [EvAcquire; EvRelease].
Proof.
  apply (monitor_update_skips_replaced_token "XYZ" 5000 VNone
           (tracking_world []) (tracked_entry "ABC" 1000)); reflexivity.
Defined.



(** ** Saving and loading *)

Lemma string_leb_refl (s : string) : String.leb s s = true.
Proof.
  unfold String.leb. pose proof (String.compare_antisym s s) as H.
  destruct (String.compare s s); try reflexivity; discriminate.
Qed.

Lemma dict_get_insert_by_key (k k1 : string) (v1 : value) (m : dict) :
  dict_get k (insert_by_key (k1, v1) m)
  = if String.eqb k1 k then Some v1 else dict_get k m.
Proof.
  induction m as [|[k' v'] m IH]; cbn [insert_by_key fst]; [reflexivity|].
  destruct (String.leb k1 k') eqn:L; [reflexivity|].
  cbn [dict_get]. rewrite IH.
  destruct (String.eqb k' k) eqn:E1; [|reflexivity].
  destruct (String.eqb k1 k) eqn:E2; [|reflexivity].
  apply String.eqb_eq in E1, E2. subst k' k1.
  rewrite string_leb_refl in L. discriminate.
Qed.

Lemma dict_get_sort_dict (k : string) (m : dict) :
  dict_get k (sort_dict m) = dict_get k m.
Proof.
  induction m as [|[k1 v1] m IH]; [reflexivity|].
  cbn [sort_dict fold_right]. fold (sort_dict m).
  rewrite dict_get_insert_by_key, IH. reflexivity.
Qed.

Lemma dict_get_map_values (f : value -> value) (k : string) (m : dict) :
  dict_get k (map (fun kv => (fst kv, f (snd kv))) m)
  = option_map f (dict_get k m).
Proof.
  induction m as [|[k1 v1] m IH]; [reflexivity|].
  cbn. destruct (String.eqb k1 k); [reflexivity|exact IH].
Qed.

Lemma dict_get_sort_keys (k : string) (d : dict) :
  dict_get k (sort_dict (map (fun kv => (fst kv, sort_keys (snd kv))) d))
  = option_map sort_keys (dict_get k d).
Proof. rewrite dict_get_sort_dict. apply dict_get_map_values. Qed.

Lemma is_dict_sort_keys (v : value) : is_dict (sort_keys v) = is_dict v.
Proof. destruct v; reflexivity. Qed.

(** Saving an entry and loading the file gives the entry back, every
    key with the value that was saved, in the normal form of written
    JSON; saving what was loaded writes the same file again.  The entry
    has a [token] and no [items] object, the mark of the legacy shape. *)
Theorem saved_entry_loads_back (entry : dict) (w : world) :
  dict_has "token" entry = true ->
  is_dict (dict_get_default "items" VNone entry) = false ->
  exists loaded,
    _load_current (results_file (snd (_save_current (VDict entry) w)))
    = Ok (VDict loaded)
    /\ (forall k, dict_get k loaded = option_map sort_keys (dict_get k entry))
    /\ written (VDict loaded) = written (VDict entry).
Proof.
  intros Htok Hitems.
  set (loaded := sort_dict (map (fun kv => (fst kv, sort_keys (snd kv))) entry)).
  exists loaded. split; [|split].
  - change (_load_current (Parsed (VDict loaded)) = Ok (VDict loaded)).
    unfold _load_current, load_current_body. cbn [read_json rbind].
    assert (Hi : is_dict (dict_get_default "items" VNone loaded) = false).
    { unfold dict_get_default, loaded in *. rewrite dict_get_sort_keys.
      destruct (dict_get "items" entry) as [v|]; [|reflexivity].
      cbn. rewrite is_dict_sort_keys. exact Hitems. }
    assert (Ht : dict_has "token" loaded = true).
    { unfold dict_has, loaded in *. rewrite dict_get_sort_keys.
      destruct (dict_get "token" entry); [reflexivity|discriminate]. }
    unfold dict_has in Ht |- *.
    destruct (dict_get_default "items" VNone loaded); try discriminate;
      destruct (dict_get "token" loaded); try discriminate; reflexivity.
  - intro k. apply dict_get_sort_keys.
  - unfold written. f_equal.
    change (VDict loaded) with (sort_keys (VDict entry)).
    apply sort_keys_idempotent.
Qed.

(** The entry of ABC, saved and loaded. *)
Lemma saved_entry_loads_back_witness :
  exists loaded,
    _load_current
      (results_file (snd (_save_current (VDict (tracked_entry "ABC" 1000))
                            (fresh_world []))))
    = Ok (VDict loaded)
    /\ (forall k, dict_get k loaded
                  = option_map sort_keys (dict_get k (tracked_entry "ABC" 1000)))
    /\ written (VDict loaded) = written (VDict (tracked_entry "ABC" 1000)).
Proof.
  apply (saved_entry_loads_back (tracked_entry "ABC" 1000) (fresh_world []));
    reflexivity.
Defined.



(** ** Candidates and the request for them *)

Lemma hex_is_alnum (c : ascii) : is_hex c = true -> is_alnum c = true.
Proof. destruct c as [[] [] [] [] [] [] [] []]; cbn; intro H; congruence. Qed.

Lemma base58_is_alnum (c : ascii) : is_base58 c = true -> is_alnum c = true.
Proof. destruct c as [[] [] [] [] [] [] [] []]; cbn; intro H; congruence. Qed.

Lemma quote_char_safe (c : ascii) : forallb url_safe (quote_char c) = true.
Proof. destruct c as [[] [] [] [] [] [] [] []]; reflexivity. Qed.

Lemma quote_char_alnum (c : ascii) : is_alnum c = true -> quote_char c = [c].
Proof. intro H. unfold quote_char. rewrite H. reflexivity. Qed.

Lemma forallb_impl {A} (p q : A -> bool) (l : list A) :
  (forall x, p x = true -> q x = true) ->
  forallb p l = true -> forallb q l = true.
Proof.
  intros Hpq. induction l as [|x l IH]; [reflexivity|]. cbn.
  intro H. apply andb_true_iff in H as [Hx Hl].
  rewrite (Hpq x Hx), (IH Hl). reflexivity.
Qed.

Lemma quote_alnum (s : string) :
  forallb is_alnum (list_ascii_of_string s) = true -> quote s = s.
Proof.
  intro H. unfold quote.
  rewrite <- (string_of_list_ascii_of_string s) at 2. f_equal.
  induction (list_ascii_of_string s) as [|c l IH]; [reflexivity|].
  cbn in H. apply andb_true_iff in H as [Hc Hl].
  cbn [flat_map]. rewrite (quote_char_alnum c Hc), (IH Hl). reflexivity.
Qed.

Lemma address_alnum (t : string) :
  is_address t = true -> forallb is_alnum (list_ascii_of_string t) = true.
Proof.
  unfold is_address.
  destruct (list_ascii_of_string t) as [|c0 [|c1 body]]; try discriminate.
  - destruct c0 as [[] [] [] [] [] [] [] []]; discriminate.
  - destruct (Ascii.eqb_spec c0 "0"); [subst c0|
      destruct c0 as [[] [] [] [] [] [] [] []]; try discriminate; congruence].
    destruct (Ascii.eqb_spec c1 "x"); [subst c1|
      destruct c1 as [[] [] [] [] [] [] [] []]; try discriminate; congruence].
    intro H. apply andb_true_iff in H as [_ H].
    cbn [forallb]. rewrite (forallb_impl _ _ _ hex_is_alnum H). reflexivity.
Qed.

Lemma ticker_alnum (t : string) :
  is_ticker_name t = true -> forallb is_alnum (list_ascii_of_string t) = true.
Proof.
  unfold is_ticker_name. intro H. apply andb_true_iff in H as [_ H]. exact H.
Qed.

Lemma mint_alnum (t : string) :
  is_mint t = true -> forallb is_alnum (list_ascii_of_string t) = true.
Proof.
  unfold is_mint. intro H. apply andb_true_iff in H as [_ H].
  exact (forallb_impl _ _ _ base58_is_alnum H).
Qed.

Lemma extract_tokens_alnum (message t : string) :
  In t (extract_tokens message) ->
  forallb is_alnum (list_ascii_of_string t) = true.
Proof.
  unfold extract_tokens. rewrite !in_app_iff. intros [H|[H|H]].
  - apply address_alnum.
    assert (F : Forall (fun t => is_address t = true)
                  (ADDRESS_REGEX_findall message)).
    { apply findall_Forall. intros _ s m. apply match_address_shape. }
    rewrite Forall_forall in F. exact (F t H).
  - apply ticker_alnum.
    assert (F : Forall (fun t => is_ticker_name t = true)
                  (map drop_first (TICKER_REGEX_findall message))).
    { apply Forall_map, findall_Forall. intros _ s m. apply match_ticker_shape. }
    rewrite Forall_forall in F. exact (F t H).
  - apply mint_alnum.
    assert (F : Forall (fun t => is_mint t = true)
                  (BASE58_MINT_REGEX_findall message)).
    { apply findall_Forall. apply match_base58_shape. }
    rewrite Forall_forall in F. exact (F t H).
Qed.

(** [quote] leaves only letters, digits, [_.-~/] and [%] in its result
    and changes nothing in a text of letters and digits; every candidate
    the classifier extracts from a message is such a text, never empty,
    so the search request carries it as it stands. *)
Theorem quote_keeps_candidates :
  (forall s, forallb url_safe (list_ascii_of_string (quote s)) = true)
  /\ (forall s, forallb is_alnum (list_ascii_of_string s) = true -> quote s = s)
  /\ (forall message t,
        In t (extract_tokens message) -> quote t = t /\ t <> "").
Proof.
  split; [|split].
  - intro s. unfold quote. rewrite list_ascii_of_string_of_list_ascii.
    induction (list_ascii_of_string s) as [|c l IH]; [reflexivity|].
    cbn [flat_map]. rewrite forallb_app, quote_char_safe. exact IH.
  - exact quote_alnum.
  - intros message t Hin. split.
    + apply quote_alnum, (extract_tokens_alnum message), Hin.
    + intros ->. revert Hin. unfold extract_tokens. rewrite !in_app_iff.
      intros [H|[H|H]].
      * assert (F : Forall (fun t => is_address t = true)
                      (ADDRESS_REGEX_findall message)).
        { apply findall_Forall. intros _ s m. apply match_address_shape. }
        rewrite Forall_forall in F. specialize (F _ H). discriminate.
      * assert (F : Forall (fun t => is_ticker_name t = true)
                      (map drop_first (TICKER_REGEX_findall message))).
        { apply Forall_map, findall_Forall. intros _ s m.
          apply match_ticker_shape. }
        rewrite Forall_forall in F. specialize (F _ H). discriminate.
      * assert (F : Forall (fun t => is_mint t = true)
                      (BASE58_MINT_REGEX_findall message)).
        { apply findall_Forall. apply match_base58_shape. }
        rewrite Forall_forall in F. specialize (F _ H). discriminate.
Qed.

Lemma take_upto_split (p : ascii -> bool) (n : nat) (s : list ascii) :
  exists rest, s = (take_upto p n s ++ rest)%list.
Proof.
  exists (skipn (List.length (take_upto p n s)) s).
  pose proof (firstn_skipn (List.length (take_upto p n s)) s) as H.
  rewrite <- take_upto_prefix in H. symmetry. exact H.
Qed.

Lemma match_address_prefix (s m : list ascii) :
  match_address s = Some m -> exists rest, s = (m ++ rest)%list.
Proof.
  unfold match_address.
  destruct s as [|c0 [|c1 tail]]; try discriminate.
  - destruct c0 as [[] [] [] [] [] [] [] []]; discriminate.
  - destruct (Ascii.eqb_spec c0 "0"); [subst c0|
      destruct c0 as [[] [] [] [] [] [] [] []]; try discriminate; congruence].
    destruct (Ascii.eqb_spec c1 "x"); [subst c1|
      destruct c1 as [[] [] [] [] [] [] [] []]; try discriminate; congruence].
    destruct (take_upto_split is_hex 40 tail) as [rest Hrest].
    set (body := take_upto is_hex 40 tail) in *. clearbody body.
    destruct (List.length body =? 40)%nat; [|discriminate].
    intros [= <-]. exists rest. cbn. rewrite Hrest at 1. reflexivity.
Qed.

Lemma match_ticker_prefix (s m : list ascii) :
  match_ticker s = Some m -> exists rest, s = (m ++ rest)%list.
Proof.
  unfold match_ticker.
  destruct s as [|c0 tail]; try discriminate.
  destruct (Ascii.eqb_spec c0 "$"); [subst c0|
    destruct c0 as [[] [] [] [] [] [] [] []]; try discriminate; congruence].
  destruct (take_upto_split is_alnum 10 tail) as [rest Hrest].
  set (body := take_upto is_alnum 10 tail) in *. clearbody body.
  destruct (2 <=? List.length body)%nat; [|discriminate].
  intros [= <-]. exists rest. cbn. rewrite Hrest at 1. reflexivity.
Qed.

Lemma match_base58_prefix (prev : option ascii) (s m : list ascii) :
  match_base58 prev s = Some m -> exists rest, s = (m ++ rest)%list.
Proof.
  unfold match_base58.
  destruct (word_boundary prev (hd_error s)); [|discriminate].
  destruct (find _ _) as [k|]; [|discriminate].
  intros [= <-]. exists (skipn k s). symmetry. apply firstn_skipn.
Qed.

Lemma string_of_list_ascii_app (a b : list ascii) :
  string_of_list_ascii (a ++ b)
  = (string_of_list_ascii a ++ string_of_list_ascii b)%string.
Proof. induction a as [|c a IH]; cbn; [reflexivity|]. f_equal. exact IH. Qed.

(** Every string [findall] returns is a piece of the text it scans. *)
Lemma findall_pieces
    (try_match : option ascii -> list ascii -> option (list ascii)) :
  (forall prev s m, try_match prev s = Some m -> exists rest, s = (m ++ rest)%list) ->
  forall s prev skip,
    Forall (fun t => exists before after : list ascii,
                       s = (before ++ list_ascii_of_string t ++ after)%list)
      (findall try_match prev skip s).
Proof.
  intros H s. induction s as [|c tail IH]; intros prev skip; cbn [findall].
  - constructor.
  - assert (Hshift : forall l,
              Forall (fun t => exists before after : list ascii,
                                 tail = (before ++ list_ascii_of_string t ++ after)%list) l ->
              Forall (fun t => exists before after : list ascii,
                                 c :: tail = (before ++ list_ascii_of_string t ++ after)%list) l).
    { intros l Hl. eapply Forall_impl; [|exact Hl].
      intros t (before & after & ->). exists (c :: before), after. reflexivity. }
    destruct skip as [|k]; [|apply Hshift, IH].
    destruct (try_match prev (c :: tail)) as [m|] eqn:E; [|apply Hshift, IH].
    constructor; [|apply Hshift, IH].
    destruct (H _ _ _ E) as [rest Hrest].
    exists [], rest. rewrite list_ascii_of_string_of_list_ascii. exact Hrest.
Qed.

Lemma pieces_occur (text : string) (l : list string) :
  Forall (fun t => exists before after : list ascii,
                     list_ascii_of_string text
                     = (before ++ list_ascii_of_string t ++ after)%list) l ->
  Forall (fun t => occurs_in t text) l.
Proof.
  intro H. eapply Forall_impl; [|exact H].
  intros t (before & after & Heq).
  exists (string_of_list_ascii before), (string_of_list_ascii after).
  rewrite <- (string_of_list_ascii_of_string text), Heq.
  rewrite !string_of_list_ascii_app, string_of_list_ascii_of_string.
  reflexivity.
Qed.

(** The classifier invents nothing: every address and every base58
    candidate stands in the message as it is returned, and every ticker
    candidate stands there behind a dollar sign. *)
Theorem candidates_occur_in_message (message : string) :
  Forall (fun t => occurs_in t message) (ADDRESS_REGEX_findall message)
  /\ Forall (fun t => occurs_in ("$" ++ t) message)
       (map drop_first (TICKER_REGEX_findall message))
  /\ Forall (fun t => occurs_in t message) (BASE58_MINT_REGEX_findall message).
Proof.
  split; [|split].
  - apply pieces_occur, findall_pieces. intros _ s m. apply match_address_prefix.
  - apply Forall_map.
    assert (P : Forall (fun t => occurs_in t message)
                  (TICKER_REGEX_findall message)).
    { apply pieces_occur, findall_pieces. intros _ s m.
      apply match_ticker_prefix. }
    assert (D : Forall (fun t => exists body, t = String "$" body)
                  (TICKER_REGEX_findall message)).
    { apply findall_Forall. intros _ s m. unfold match_ticker.
      destruct s as [|c0 tail]; try discriminate.
      destruct (Ascii.eqb_spec c0 "$"); [subst c0|
        destruct c0 as [[] [] [] [] [] [] [] []]; try discriminate; congruence].
      destruct (2 <=? _)%nat; [|discriminate].
      intros [= <-]. eexists. reflexivity. }
    rewrite Forall_forall in P, D |- *. intros t Hin.
    destruct (D t Hin) as [body ->]. exact (P _ Hin).
  - apply pieces_occur, findall_pieces. apply match_base58_prefix.
Qed.

(** ** What the fetcher and the lifecycle leave alone *)

Section Frames.
Context {float_str : FloatOfStr}.

(** What one fetch does to the world, and what it returns. *)
Lemma fetch_market_cap_effect (key : string) (w : world) :
  let r := fetch_market_cap (VStr key) w in
  trace (snd r) = trace w ++ [EvHttpGet (fetch_url key)]
  /\ network (snd r) = tl (network w)
  /\ holder (snd r) = holder w
  /\ results_file (snd r) = results_file w
  /\ history_file (snd r) = history_file w
  /\ now (snd r) = now w
  /\ fst r = match network w with
             | [] => Raise URLError
             | HttpFail e :: _ => Raise e
             | HttpBody data :: _ => market_cap_of_document data
             end.
Proof.
  cbv zeta. destruct w as [h rf hf net nw tr].
  unfold fetch_market_cap, fetch_url, _fetch_market_cap_for_address,
    _fetch_market_cap_for_ticker, bind, _http_get_json, lift.
  cbn [network add_event holder results_file history_file now trace].
  destruct (String.prefix "0x" key);
    destruct net as [|[e|data] rest];
    cbn [fst snd network holder results_file history_file now trace tl];
    repeat split.
Qed.

(** A fetch makes exactly one request, to the by-address URL when the
    key starts with [0x] and to the search URL with the quoted key
    otherwise; it takes the next answer of the API and touches neither
    the holder nor a file; its result is the exception of a failed
    request, or what the document read gives. *)
Theorem fetch_market_cap_one_request (key : string) (w : world) :
  let r := fetch_market_cap (VStr key) w in
  trace (snd r) = trace w ++ [EvHttpGet (fetch_url key)]
  /\ network (snd r) = tl (network w)
  /\ holder (snd r) = holder w
  /\ results_file (snd r) = results_file w
  /\ history_file (snd r) = history_file w
  /\ now (snd r) = now w
  /\ fst r = match network w with
             | [] => Raise URLError
             | HttpFail e :: _ => Raise e
             | HttpBody data :: _ => market_cap_of_document data
             end.
Proof. exact (fetch_market_cap_effect key w). Qed.

Lemma keeps_state_fetch (token_key : value) :
  keeps_state (fetch_market_cap token_key).
Proof.
  intro w. destruct token_key as [| | |key| |]; try (repeat split; reflexivity).
  pose proof (fetch_market_cap_effect key w) as H. cbv zeta in H.
  tauto.
Qed.


Ltac market_frame Hk :=
  repeat (rewrite dict_get_set_neq
            by (cbn in Hk; rewrite !orb_false_iff in Hk;
                rewrite String.eqb_sym; tauto));
  try reflexivity.

(** What a refresh assigns in the entry. *)
Lemma refresh_entry_effect (token_key : value) (entry entry' : dict)
    (w w' : world) :
  _refresh_entry_market_cap token_key entry w = (Ok entry', w') ->
  (forall k, is_market_key k = false -> dict_get k entry' = dict_get k entry)
  /\ (entry' = entry
      \/ exists market_cap,
           dict_get "initial_market_cap" entry' = Some (VNum market_cap)
           /\ dict_get "highest_market_cap" entry' = Some (VNum market_cap)
           /\ dict_get "current_market_cap" entry' = Some (VNum market_cap)
           /\ dict_get "current_percentage" entry' = Some (VStr "+0.00%")
           /\ dict_get "highest_percent_increase" entry' = Some (VNum 0)
           /\ dict_get "reached_50" entry' = Some (VBool false)
           /\ dict_get "last_checked" entry' = Some (VStr (now w))).
Proof.
  unfold _refresh_entry_market_cap, bind.
  pose proof (keeps_state_fetch token_key w) as (_ & _ & _ & Hnow).
  destruct (fetch_market_cap token_key w) as [[[mc url]|e] w1];
    [|discriminate].
  cbn [fst snd] in *. destruct mc as [mc|].
  - unfold _utc_now_iso, ret. rewrite Hnow. intros [= <- _]. split.
    + intros k Hk. destruct (truthy url); market_frame Hk.
    + right. exists mc. destruct (truthy url); dict_simpl; repeat split.
  - unfold ret. intros [= <- _]. split; [reflexivity|left; reflexivity].
Qed.

(** A refresh that returns has either left the entry as it was (no
    market cap was found) or made the fetched market cap the initial,
    highest and current one, with the zero percentage, no peak, the flag
    down and the time of the fetch; whichever it is, every key outside
    the market keys, the token among them, keeps its value. *)
Theorem refresh_sets_market_fields (token_key : value) (entry entry' : dict)
    (w w' : world) :
  _refresh_entry_market_cap token_key entry w = (Ok entry', w') ->
  (forall k, is_market_key k = false -> dict_get k entry' = dict_get k entry)
  /\ (entry' = entry
      \/ exists market_cap,
           dict_get "initial_market_cap" entry' = Some (VNum market_cap)
           /\ dict_get "highest_market_cap" entry' = Some (VNum market_cap)
           /\ dict_get "current_market_cap" entry' = Some (VNum market_cap)
           /\ dict_get "current_percentage" entry' = Some (VStr "+0.00%")
           /\ dict_get "highest_percent_increase" entry' = Some (VNum 0)
           /\ dict_get "reached_50" entry' = Some (VBool false)
           /\ dict_get "last_checked" entry' = Some (VStr (now w))).
Proof. exact (refresh_entry_effect token_key entry entry' w w'). Qed.

End Frames.

(** ABC is fetched on a fresh process and the API answers 1000. *)
Lemma refresh_sets_market_fields_witness :
  (forall k, is_market_key k = false ->
             dict_get k (tracked_entry "ABC" 1000)
             = dict_get k (new_entry "ABC" "t"))
  /\ (tracked_entry "ABC" 1000 = new_entry "ABC" "t"
      \/ exists market_cap,
           dict_get "initial_market_cap" (tracked_entry "ABC" 1000)
           = Some (VNum market_cap)
           /\ dict_get "highest_market_cap" (tracked_entry "ABC" 1000)
              = Some (VNum market_cap)
           /\ dict_get "current_market_cap" (tracked_entry "ABC" 1000)
              = Some (VNum market_cap)
           /\ dict_get "current_percentage" (tracked_entry "ABC" 1000)
              = Some (VStr "+0.00%")
           /\ dict_get "highest_percent_increase" (tracked_entry "ABC" 1000)
              = Some (VNum 0)
           /\ dict_get "reached_50" (tracked_entry "ABC" 1000)
              = Some (VBool false)
           /\ dict_get "last_checked" (tracked_entry "ABC" 1000)
              = Some (VStr "t")).
Proof.
  exact (refresh_sets_market_fields (VStr "ABC") (new_entry "ABC" "t")
           (tracked_entry "ABC" 1000)
           (mkWorld VNone Missing Missing [reply_market_cap 1000] "t" [])
           (mkWorld VNone Missing Missing [] "t"
              [EvHttpGet "https://api.dexscreener.com/latest/dex/search/?q=ABC"])
           eq_refl).
Defined.

(** ** What the monitor loop never does *)

Ltac market_frame Hk :=
  repeat (rewrite dict_get_set_neq
            by (cbn in Hk; rewrite !orb_false_iff in Hk;
                rewrite String.eqb_sym; tauto));
  try reflexivity.

(** An update, completed or cut short by an exception, assigns market
    keys only. *)
Lemma apply_observation_frame (mc : Q) (url : value) (ts : string)
    (d d' : dict) (r : result unit) (k : string) :
  apply_observation mc url ts d = (r, d') ->
  is_market_key k = false ->
  dict_get k d' = dict_get k d.
Proof.
  unfold apply_observation, bind, entry_get, entry_set, lift, ret.
  cbv beta iota. intros H Hk.
  repeat match type of H with
    | context [match ?x with Ok _ => _ | Raise _ => _ end] =>
        destruct x eqn:?; cbv beta iota in H
    | context [if ?b then _ else _] =>
        destruct b eqn:?; cbv beta iota in H
    end;
    apply (f_equal snd) in H; cbn [snd] in H; subst d'; market_frame Hk.
Qed.

Lemma keeps_identity_refl (v : value) : keeps_identity v v.
Proof. destruct v; cbn; try reflexivity. exists d. auto. Qed.

Lemma keeps_identity_trans (a b c : value) :
  keeps_identity a b -> keeps_identity b c -> keeps_identity a c.
Proof.
  destruct a; cbn; try (intros -> H; exact H).
  intros (d1 & -> & H1) (d2 & -> & H2). exists d2. split; [reflexivity|].
  intros k Hk. rewrite (H2 k Hk). apply H1, Hk.
Qed.

Section MonitorFrame.
Context {float_str : FloatOfStr}.

Lemma monitor_update_frame (key : string) (mc : Q) (url : value) (w : world) :
  history_file (snd (monitor_update key mc url w)) = history_file w
  /\ network (snd (monitor_update key mc url w)) = network w
  /\ keeps_identity (holder w) (holder (snd (monitor_update key mc url w))).
Proof.
  destruct w as [h rf hf net nw tr].
  unfold monitor_update, with_lock, bind, get_holder, lift, ret.
  cbn [holder add_event results_file history_file network now trace].
  destruct (truthy h) eqn:Et; cbn [negb snd history_file network holder add_event];
    [|repeat split; apply keeps_identity_refl].
  destruct (py_get h "token" VNone) as [token|e] eqn:Eg;
    cbn [snd history_file network holder add_event];
    [|repeat split; apply keeps_identity_refl].
  destruct (eq_str token key);
    cbn [negb snd history_file network holder add_event];
    [|repeat split; apply keeps_identity_refl].
  unfold _utc_now_iso, with_entry.
  cbn [holder results_file history_file network now trace].
  destruct h as [| | | | |d]; try discriminate.
  cbn [holder results_file history_file network now trace add_event].
  destruct (apply_observation mc url nw d) as [r d'] eqn:Ea.
  assert (Hid : keeps_identity (VDict d) (VDict d')).
  { exists d'. split; [reflexivity|]. intros k Hk.
    exact (apply_observation_frame mc url nw d d' r k Ea Hk). }
  destruct r; cbn [snd history_file network holder add_event _save_current
                     results_file now trace];
    repeat split; exact Hid.
Qed.

Lemma monitor_cycle_frame (w : world) :
  history_file (snd (monitor_cycle w)) = history_file w
  /\ keeps_identity (holder w) (holder (snd (monitor_cycle w))).
Proof.
  destruct w as [h rf hf net nw tr].
  unfold monitor_cycle, bind, emit, with_lock, get_holder, lift, ret.
  cbn [holder add_event results_file history_file network now trace snd].
  destruct (truthy h); cbn [negb snd history_file holder add_event];
    [|split; [reflexivity|apply keeps_identity_refl]].
  destruct (py_get h "token" VNone) as [token_key|e];
    cbn [snd history_file holder add_event];
    [|split; [reflexivity|apply keeps_identity_refl]].
  destruct (truthy token_key); cbn [negb snd history_file holder add_event];
    [|split; [reflexivity|apply keeps_identity_refl]].
  match goal with
  | |- context [fetch_market_cap token_key ?w0] =>
      pose proof (keeps_state_fetch token_key w0) as (Hh & _ & Hhf & _);
      destruct (fetch_market_cap token_key w0) as [[[mc url]|e] w1]
  end; cbn [snd fst holder history_file] in *.
  - destruct mc as [mc|]; [destruct token_key|];
      try (cbn [snd]; rewrite Hh, Hhf; split;
           [reflexivity|apply keeps_identity_refl]).
    destruct (monitor_update_frame s mc url w1) as (H1 & _ & H2).
    rewrite H1, Hhf. rewrite Hh in H2. split; [reflexivity|exact H2].
  - rewrite Hh, Hhf. split; [reflexivity|apply keeps_identity_refl].
Qed.

(** However many turns the monitor makes and however they end, it never
    writes the history file and never changes the identity of the
    active entry: a holder that is no dict stays the same object, and an
    entry keeps its value under every key that is not a market key, so
    its token and its time of posting stay. *)
Theorem monitor_keeps_token_and_history (cycles : nat) (w : world) :
  history_file (snd (market_cap_monitor cycles w)) = history_file w
  /\ keeps_identity (holder w) (holder (snd (market_cap_monitor cycles w)))
  /\ py_get (holder (snd (market_cap_monitor cycles w))) "token" VNone
     = py_get (holder w) "token" VNone.
Proof.
  assert (H : history_file (snd (market_cap_monitor cycles w)) = history_file w
              /\ keeps_identity (holder w)
                   (holder (snd (market_cap_monitor cycles w)))).
  { revert w. induction cycles as [|n IH]; intro w; cbn [market_cap_monitor].
    - split; [reflexivity|apply keeps_identity_refl].
    - destruct (monitor_cycle_frame w) as [H1 H2].
      destruct (monitor_cycle w) as [[u|e] w1]; cbn [snd] in *.
      + destruct (IH w1) as [H3 H4]. split; [congruence|].
        eapply keeps_identity_trans; eassumption.
      + split; assumption. }
  destruct H as [H1 H2]. split; [exact H1|]. split; [exact H2|].
  destruct (holder w) as [| | | | |d]; cbn in H2; try (rewrite H2; reflexivity).
  destruct H2 as (d' & -> & Hd). cbn. unfold dict_get_default.
  rewrite (Hd "token" eq_refl). reflexivity.
Qed.

End MonitorFrame.

(** ** The current-state file follows the active entry *)


Section Persisted.
Context {float_str : FloatOfStr}.










End Persisted.


(** ** Messages the handler ignores *)

Section Ignored.
Context {float_str : FloatOfStr}.

(** In discovery mode the handler only forwards the message, whatever
    it says and wherever it comes from.  Otherwise a message from a chat
    that is not allowed, from a sender outside a non-empty list of
    users, or without a candidate changes nothing at all: no request, no
    write, nothing forwarded. *)
Theorem handler_ignores_message (config : Config) (ev : NewMessage) (w : world) :
  discovery_mode config = true
  \/ Z_mem (chat_id ev) (group_ids config) = false
  \/ (user_ids config <> [] /\ Z_mem (sender_id ev) (user_ids config) = false)
  \/ extract_tokens (match raw_text ev with Some t => t | None => "" end) = [] ->
  handler config ev w
  = (Ok tt, if discovery_mode config then add_event EvSendMessage w else w).
Proof.
  intro H. unfold handler, handler_body.
  destruct (discovery_mode config); [reflexivity|].
  destruct H as [H|[H|[[Hne H]|H]]]; [discriminate| | |].
  - rewrite H. reflexivity.
  - destruct (negb (Z_mem (chat_id ev) (group_ids config))); [reflexivity|].
    rewrite H. destruct (user_ids config); [congruence|reflexivity].
  - destruct (negb (Z_mem (chat_id ev) (group_ids config))); [reflexivity|].
    destruct (_ && _); [reflexivity|]. rewrite H. reflexivity.
Qed.

(** With no active entry, or an entry without a token, the monitor
    makes no request and changes nothing however long it runs: each turn
    sleeps, takes the lock to look at the holder and releases it. *)
Theorem monitor_idles_without_entry (cycles : nat) (w : world) :
  nothing_to_observe (holder w) ->
  exists w',
    market_cap_monitor cycles w = (Looping, w')
    /\ holder w' = holder w
    /\ results_file w' = results_file w
    /\ history_file w' = history_file w
    /\ network w' = network w
    /\ trace w'
       = trace w ++ List.concat (repeat [EvSleep; EvAcquire; EvRelease] cycles).
Proof.
  revert w. induction cycles as [|n IH]; intros w Hn; cbn [market_cap_monitor].
  - exists w. cbn. rewrite app_nil_r. repeat split.
  - assert (Hc : monitor_cycle w
                 = (Ok tt, add_event EvRelease
                             (add_event EvAcquire (add_event EvSleep w)))).
    { destruct w as [h rf hf net nw tr]. cbn [holder] in Hn.
      unfold monitor_cycle, bind, emit, with_lock, get_holder, lift, ret.
      cbn [holder add_event results_file history_file network now trace].
      destruct Hn as [Hf|(d & -> & Ht)].
      - rewrite Hf. reflexivity.
      - destruct (truthy (VDict d)); [|reflexivity].
        cbn [negb py_get]. rewrite Ht. reflexivity. }
    rewrite Hc.
    destruct (IH (add_event EvRelease
                    (add_event EvAcquire (add_event EvSleep w))))
      as (w' & Hrun & Hh & Hr & Hhf & Hnet & Htr).
    { destruct w. exact Hn. }
    exists w'. split; [exact Hrun|].
    destruct w as [h rf hf net nw tr]. cbn in *.
    repeat split; try assumption.
    rewrite Htr, <- !app_assoc. reflexivity.
Qed.

End Ignored.

(** A message from a chat outside the allow-list. *)
Lemma handler_ignores_message_witness :
  handler open_config (mkNewMessage (Some "$ABC") 99 7 "t")
    (tracking_world [reply_market_cap 1500])
  = (Ok tt, tracking_world [reply_market_cap 1500]).
Proof.
  apply (handler_ignores_message open_config
           (mkNewMessage (Some "$ABC") 99 7 "t")
           (tracking_world [reply_market_cap 1500])).
  right. left. reflexivity.
Defined.

(** A fresh process without static token, five turns. *)
Lemma monitor_idles_without_entry_witness :
  exists w',
    market_cap_monitor 5 (fresh_world [reply_market_cap 1500]) = (Looping, w')
    /\ holder w' = VNone
    /\ results_file w' = Missing
    /\ history_file w' = Missing
    /\ network w' = [reply_market_cap 1500]
    /\ trace w' = [] ++ List.concat (repeat [EvSleep; EvAcquire; EvRelease] 5).
Proof.
  apply (monitor_idles_without_entry 5 (fresh_world [reply_market_cap 1500])).
  left. reflexivity.
Defined.

(** ** Start-up: migration of the loaded entry and the static token *)

Lemma dict_get_pop_neq (k k' : string) (d : dict) :
  String.eqb k' k = false -> dict_get k (dict_pop k' d) = dict_get k d.
Proof.
  intro N. induction d as [|[k0 v0] d IH]; [reflexivity|].
  cbn [dict_pop]. destruct (String.eqb k0 k') eqn:E.
  - apply String.eqb_eq in E. subst k0. cbn [dict_get]. rewrite N. reflexivity.
  - cbn [dict_get]. destruct (String.eqb k0 k); [reflexivity|exact IH].
Qed.

Lemma dict_has_set (k k' : string) (v : value) (d : dict) :
  dict_has k d = true -> dict_has k (dict_set k' v d) = true.
Proof.
  unfold dict_has. destruct (String.eqb k' k) eqn:E.
  - apply String.eqb_eq in E. subst k'. rewrite dict_get_set_eq. reflexivity.
  - rewrite dict_get_set_neq by exact E. exact (fun H => H).
Qed.

Section Migration.
Context {float_str : FloatOfStr}.

(** The three steps of lines 232-242, before any request. *)
Lemma migrate_legacy_keys (entry : dict) :
  let e1 := if dict_has "initial_price" entry || dict_has "highest_price" entry
            then dict_pop "highest_price" (dict_pop "initial_price" entry)
            else entry in
  let e2 := match dict_get "percent_increase" e1 with
            | Some raw_value =>
                let e := dict_pop "percent_increase" e1 in
                match raw_value with
                | VNum q => dict_set "current_percentage" (VStr (_format_percent q)) e
                | VBool b =>
                    dict_set "current_percentage"
                      (VStr (_format_percent (if b then 1 else 0))) e
                | _ => dict_set "current_percentage" raw_value e
                end
            | None => e1
            end in
  let e3 := if dict_has "current_percentage" e2 then e2
            else dict_set "current_percentage" (VStr (_format_percent 0)) e2 in
  dict_has "current_percentage" e3 = true
  /\ dict_get "token" e3 = dict_get "token" entry
  /\ dict_get "initial_market_cap" e3 = dict_get "initial_market_cap" entry
  /\ dict_get "highest_percent_increase" e3
     = dict_get "highest_percent_increase" entry
  /\ (forall q, dict_get "percent_increase" entry = Some (VNum q) ->
                dict_get "current_percentage" e3
                = Some (VStr (_format_percent q))).
Proof.
  cbv zeta.
  set (e1 := if dict_has "initial_price" entry || dict_has "highest_price" entry
             then dict_pop "highest_price" (dict_pop "initial_price" entry)
             else entry).
  assert (F1 : forall k, String.eqb "initial_price" k = false ->
                         String.eqb "highest_price" k = false ->
                         dict_get k e1 = dict_get k entry).
  { intros k N1 N2. unfold e1. destruct (_ || _); [|reflexivity].
    rewrite !dict_get_pop_neq by assumption. reflexivity. }
  set (e2 := match dict_get "percent_increase" e1 with
             | Some raw_value => _
             | None => e1
             end).
  assert (F2 : forall k, String.eqb "percent_increase" k = false ->
                         String.eqb "current_percentage" k = false ->
                         dict_get k e2 = dict_get k e1).
  { intros k N1 N2. unfold e2.
    destruct (dict_get "percent_increase" e1) as [raw|]; [|reflexivity].
    destruct raw; cbv zeta;
      rewrite dict_get_set_neq by assumption;
      apply dict_get_pop_neq; assumption. }
  assert (P2 : forall q, dict_get "percent_increase" entry = Some (VNum q) ->
                         dict_get "current_percentage" e2
                         = Some (VStr (_format_percent q))).
  { intros q Hq. unfold e2. rewrite (F1 "percent_increase") by reflexivity.
    rewrite Hq. cbv zeta. apply dict_get_set_eq. }
  set (e3 := if dict_has "current_percentage" e2 then e2 else _).
  assert (F3 : forall k, String.eqb "current_percentage" k = false ->
                         dict_get k e3 = dict_get k e2).
  { intros k N. unfold e3. destruct (dict_has "current_percentage" e2);
      [reflexivity|]. apply dict_get_set_neq, N. }
  split; [|split; [|split; [|split]]].
  - unfold e3. destruct (dict_has "current_percentage" e2) eqn:E; [exact E|].
    unfold dict_has. rewrite dict_get_set_eq. reflexivity.
  - rewrite F3, F2, F1 by reflexivity. reflexivity.
  - rewrite F3, F2, F1 by reflexivity. reflexivity.
  - rewrite F3, F2, F1 by reflexivity. reflexivity.
  - intros q Hq. specialize (P2 q Hq). unfold e3, dict_has. rewrite P2. exact P2.
Qed.

(** A migration that returns has given the entry a [current_percentage]
    and a [highest_percent_increase] that is not null, and kept its
    token.  If the entry came with an [initial_market_cap], no request
    was made and nothing else happened, the market cap is kept, and a
    numeric legacy [percent_increase] has become the [current_percentage]
    text. *)
Theorem migrate_loaded_entry_result (entry entry' : dict) (w w' : world) :
  migrate_loaded_entry entry w = (Ok entry', w') ->
  dict_has "current_percentage" entry' = true
  /\ is_none (dict_get_default "highest_percent_increase" VNone entry') = false
  /\ dict_get "token" entry' = dict_get "token" entry
  /\ (is_none (dict_get_default "initial_market_cap" VNone entry) = false ->
      w' = w
      /\ dict_get "initial_market_cap" entry'
         = dict_get "initial_market_cap" entry
      /\ forall q, dict_get "percent_increase" entry = Some (VNum q) ->
                   dict_get "current_percentage" entry'
                   = Some (VStr (_format_percent q))).
Proof.
  unfold migrate_loaded_entry.
  pose proof (migrate_legacy_keys entry) as L. cbv zeta in L |- *.
  set (e3 := if dict_has "current_percentage" _ then _ else _) in *.
  clearbody e3. destruct L as (Lhas & Ltok & Linit & Lhpi & Lpct).
  assert (Hfinal : forall e4 : dict,
            dict_has "current_percentage" e4 = true ->
            let e5 := if is_none (dict_get_default "highest_percent_increase" VNone e4)
                      then dict_set "highest_percent_increase" (VNum 0) e4
                      else e4 in
            dict_has "current_percentage" e5 = true
            /\ is_none (dict_get_default "highest_percent_increase" VNone e5) = false
            /\ (forall k, String.eqb "highest_percent_increase" k = false ->
                          dict_get k e5 = dict_get k e4)).
  { intros e4 H4. cbv zeta.
    destruct (is_none (dict_get_default "highest_percent_increase" VNone e4)) eqn:E.
    - split; [apply dict_has_set, H4|]. split.
      + unfold dict_get_default. rewrite dict_get_set_eq. reflexivity.
      + intros k N. apply dict_get_set_neq, N.
    - auto. }
  unfold bind.
  assert (Einit : dict_get_default "initial_market_cap" VNone e3
                  = dict_get_default "initial_market_cap" VNone entry).
  { unfold dict_get_default. rewrite Linit. reflexivity. }
  rewrite Einit.
  destruct (is_none (dict_get_default "initial_market_cap" VNone entry)) eqn:En.
  - destruct (dict_get "token" e3) as [token|] eqn:Etok; [|discriminate].
    destruct (_refresh_entry_market_cap token e3 w) as [[e4|e] w1] eqn:Er;
      [|discriminate].
    unfold ret. intros [= <- <-].
    destruct (refresh_entry_effect token e3 e4 w w1 Er) as [Hframe Hset].
    assert (H4 : dict_has "current_percentage" e4 = true).
    { destruct Hset as [->|(mc & _ & _ & _ & Hcp & _)]; [exact Lhas|].
      unfold dict_has. rewrite Hcp. reflexivity. }
    destruct (Hfinal e4 H4) as (A & B & C). cbv zeta in A, B, C.
    split; [exact A|]. split; [exact B|]. split; [|discriminate].
    rewrite C by reflexivity. rewrite Hframe by reflexivity.
    rewrite Etok. exact Ltok.
  - unfold ret. intros [= <- <-].
    destruct (Hfinal e3 Lhas) as (A & B & C). cbv zeta in A, B, C.
    split; [exact A|]. split; [exact B|]. split.
    + rewrite C by reflexivity. exact Ltok.
    + intros _. split; [reflexivity|]. split.
      * rewrite C by reflexivity. exact Linit.
      * intros q Hq. rewrite C by reflexivity. exact (Lpct q Hq).
Qed.

End Migration.
Lemma migrate_loaded_entry_result_witness :
  let entry' := [("token", VStr "ABC"); ("initial_market_cap", VNum 1000);
                 ("current_percentage", VStr "+12.50%");
                 ("highest_percent_increase", VNum 0)] in
  dict_has "current_percentage" entry' = true
  /\ is_none (dict_get_default "highest_percent_increase" VNone entry') = false
  /\ dict_get "token" entry' = dict_get "token" legacy_entry
  /\ (is_none (dict_get_default "initial_market_cap" VNone legacy_entry) = false ->
      fresh_world [] = fresh_world []
      /\ dict_get "initial_market_cap" entry'
         = dict_get "initial_market_cap" legacy_entry
      /\ forall q, dict_get "percent_increase" legacy_entry = Some (VNum q) ->
                   dict_get "current_percentage" entry'
                   = Some (VStr (_format_percent q))).
Proof.
  exact (migrate_loaded_entry_result legacy_entry _ (fresh_world []) _ eq_refl).
Defined.

Section Static.
Context {float_str : FloatOfStr}.

Lemma refresh_answered (token_key : string) (entry : dict) (w : world)
    (r : http_reply) (rest : list http_reply) :
  network w = r :: rest ->
  benign_reply r = true ->
  exists entry',
    _refresh_entry_market_cap (VStr token_key) entry w
    = (Ok entry',
       mkWorld (holder w) (results_file w) (history_file w) rest (now w)
         (trace w ++ [EvHttpGet (fetch_url token_key)])).
Proof.
  intros Hn Hb. unfold _refresh_entry_market_cap, bind.
  pose proof (fetch_market_cap_effect token_key w) as H. cbv zeta in H.
  destruct H as (Ht & Hnet & Hh & Hr & Hhf & Hnow & Hres).
  rewrite Hn in Hres, Hnet. cbn [tl] in Hnet.
  destruct r as [e|data]; [discriminate|]. cbn [benign_reply] in Hb.
  destruct (market_cap_of_document data) as [res|e]; [|discriminate].
  destruct (fetch_market_cap (VStr token_key) w) as [r1 w1].
  cbn [fst snd] in *. subst r1.
  assert (Hw1 : w1 = mkWorld (holder w) (results_file w) (history_file w) rest
                       (now w) (trace w ++ [EvHttpGet (fetch_url token_key)])).
  { destruct w1. cbn in *. congruence. }
  rewrite Hw1. destruct res as [[mc|] url]; cbn [fst snd];
    unfold _utc_now_iso, ret; eexists; reflexivity.
Qed.

(** The static tokens of the configuration are looked at only when no
    entry was loaded: otherwise, and when there are none, nothing
    happens.  When the holder is empty and the API answers, the last
    static token alone becomes the active entry, posted at the present
    time, fetched under the lock and saved; the history is not written. *)
Theorem start_static_token_adopts_last (static_tokens : list string) (w : world) :
  (static_tokens = [] \/ truthy (holder w) = true ->
   start_static_token static_tokens w = (Ok tt, w))
  /\ (forall r rest,
        static_tokens <> [] ->
        truthy (holder w) = false ->
        network w = r :: rest ->
        benign_reply r = true ->
        exists entry w',
          start_static_token static_tokens w = (Ok tt, w')
          /\ holder w' = VDict entry
          /\ dict_get "token" entry = Some (VStr (last static_tokens ""))
          /\ dict_get "time_posted" entry = Some (VStr (now w))
          /\ results_file w' = written (VDict entry)
          /\ history_file w' = history_file w
          /\ network w' = rest
          /\ trace w'
             = trace w
               ++ [EvAcquire; EvHttpGet (fetch_url (last static_tokens ""));
                   EvWriteCurrent; EvRelease]).
Proof.
  split.
  - intros [->|Ht]; unfold start_static_token, bind, get_holder, ret.
    + reflexivity.
    + destruct static_tokens; [reflexivity|]. rewrite Ht. reflexivity.
  - intros r rest Hne Hf Hn Hb.
    destruct static_tokens as [|t0 ts]; [congruence|].
    assert (Hlast : last (t0 :: ts) t0 = last (t0 :: ts) "")
      by (apply last_default_irrelevant; discriminate).
    set (token_key := last (t0 :: ts) "") in *.
    unfold start_static_token. unfold bind at 1. unfold get_holder at 1.
    cbv beta iota. rewrite Hf. rewrite Hlast.
    unfold with_lock. unfold bind at 1. unfold _utc_now_iso at 1.
    cbv beta iota. unfold bind at 1.
    destruct (refresh_answered token_key
                (new_entry token_key (now (add_event EvAcquire w)))
                (add_event EvAcquire w) r rest)
      as [entry' Hrun]; [destruct w; exact Hn|exact Hb|].
    rewrite Hrun. cbv beta iota.
    destruct (refresh_entry_effect _ _ _ _ _ Hrun) as [Hframe _].
    exists entry'. eexists. split; [reflexivity|].
    destruct w as [h rf hf net nw tr].
    cbn [set_holder _save_current bind add_event holder results_file
           history_file network now trace snd fst].
    split; [reflexivity|].
    split; [rewrite Hframe by reflexivity; reflexivity|].
    split; [rewrite Hframe by reflexivity; reflexivity|].
    repeat split. rewrite <- !app_assoc. reflexivity.
Qed.

End Static.
(** ** The configuration: lists in environment variables *)

Section Splitting.
Import ConfigPy.

Lemma split_on_pieces (sep : ascii) (s : list ascii) :
  split_on sep s <> [] /\ Forall (fun piece => not_sep sep piece = true) (split_on sep s).
Proof.
  induction s as [|c s [IHn IHf]]; cbn.
  - split; [discriminate|]. constructor; [reflexivity|constructor].
  - destruct (Ascii.eqb c sep) eqn:E.
    + split; [discriminate|]. constructor; [reflexivity|exact IHf].
    + destruct (split_on sep s) as [|piece pieces]; [congruence|].
      split; [discriminate|]. inversion IHf as [|? ? Hp Hps]; subst.
      constructor; [|exact Hps]. unfold not_sep in *. cbn. rewrite E. exact Hp.
Qed.

Lemma split_on_clean (sep : ascii) (l : list ascii) :
  not_sep sep l = true -> split_on sep l = [l].
Proof.
  induction l as [|c l IH]; cbn; [reflexivity|]. intro H.
  apply andb_true_iff in H as [Hc Hl]. apply negb_true_iff in Hc.
  rewrite Hc, (IH Hl). reflexivity.
Qed.

Lemma split_on_app (sep : ascii) (l rest : list ascii) :
  not_sep sep l = true ->
  split_on sep (l ++ sep :: rest) = l :: split_on sep rest.
Proof.
  induction l as [|c l IH]; cbn.
  - intros _. rewrite Ascii.eqb_refl. reflexivity.
  - intro H. apply andb_true_iff in H as [Hc Hl]. apply negb_true_iff in Hc.
    rewrite Hc, (IH Hl). reflexivity.
Qed.

Lemma str_split_join (items : list string) :
  items <> [] ->
  forallb no_comma items = true ->
  str_split "," (join_comma items) = items.
Proof.
  induction items as [|item rest IH]; [congruence|]. intros _ H.
  cbn [forallb] in H. apply andb_true_iff in H as [Hi Hr].
  destruct rest as [|item' rest'].
  - cbn [join_comma]. unfold str_split. rewrite split_on_clean by exact Hi.
    cbn. rewrite string_of_list_ascii_of_string. reflexivity.
  - change (join_comma (item :: item' :: rest'))
      with (item ++ "," ++ join_comma (item' :: rest'))%string.
    unfold str_split. rewrite list_ascii_of_string_app.
    change (list_ascii_of_string ("," ++ join_comma (item' :: rest')))
      with (","%char :: list_ascii_of_string (join_comma (item' :: rest'))).
    rewrite split_on_app by exact Hi. cbn [map].
    rewrite string_of_list_ascii_of_string. f_equal.
    apply IH; [discriminate|exact Hr].
Qed.

Lemma drop_while_head {A} (p : A -> bool) (l : list A) :
  match drop_while p l with
  | [] => True
  | x :: _ => p x = false
  end.
Proof.
  induction l as [|x l IH]; cbn; [exact I|].
  destruct (p x) eqn:E; [exact IH|exact E].
Qed.

Lemma drop_while_keep {A} (p : A -> bool) (x : A) (l : list A) :
  p x = false -> drop_while p (x :: l) = x :: l.
Proof. intro H. cbn. rewrite H. reflexivity. Qed.

Lemma drop_while_snoc {A} (p : A -> bool) (l : list A) (x : A) :
  p x = false ->
  exists l', drop_while p (l ++ [x]) = l' ++ [x].
Proof.
  intro H. induction l as [|y l [l' IH]]; cbn.
  - rewrite H. exists []. reflexivity.
  - destruct (p y); [exists l'; exact IH|]. exists (y :: l). reflexivity.
Qed.

Lemma drop_while_forallb {A} (p q : A -> bool) (l : list A) :
  forallb q l = true -> forallb q (drop_while p l) = true.
Proof.
  induction l as [|x l IH]; cbn; [reflexivity|]. intro H.
  destruct (p x); [|exact H].
  apply andb_true_iff in H as [_ Hl]. exact (IH Hl).
Qed.

Lemma forallb_rev {A} (q : A -> bool) (l : list A) :
  forallb q (rev l) = forallb q l.
Proof.
  induction l as [|x l IH]; cbn; [reflexivity|].
  rewrite forallb_app, IH. cbn. rewrite andb_true_r. apply andb_comm.
Qed.

Lemma strip_chars_forallb (p q : ascii -> bool) (l : list ascii) :
  forallb q l = true -> forallb q (strip_chars p l) = true.
Proof.
  intro H. unfold strip_chars. rewrite forallb_rev.
  apply drop_while_forallb. rewrite forallb_rev.
  apply drop_while_forallb. exact H.
Qed.

(** What [strip] returns has none of the stripped characters at either end. *)
Lemma strip_chars_ends (p : ascii -> bool) (l : list ascii) :
  match strip_chars p l with
  | [] => True
  | c :: _ => p c = false
  end
  /\ match rev (strip_chars p l) with
     | [] => True
     | c :: _ => p c = false
     end.
Proof.
  unfold strip_chars. rewrite rev_involutive. split.
  - pose proof (drop_while_head p l) as H.
    destruct (drop_while p l) as [|x m]; [exact I|].
    cbn [rev]. destruct (drop_while_snoc p (rev m) x H) as [l' ->].
    rewrite rev_app_distr. cbn. exact H.
  - apply drop_while_head.
Qed.

(** A text with no such character at either end is returned as it is. *)
Lemma strip_chars_fixed (p : ascii -> bool) (l : list ascii) :
  match l with [] => True | c :: _ => p c = false end ->
  match rev l with [] => True | c :: _ => p c = false end ->
  strip_chars p l = l.
Proof.
  intros Hh Hl. unfold strip_chars.
  destruct l as [|c l]; [reflexivity|].
  rewrite (drop_while_keep p c l Hh).
  destruct (rev (c :: l)) as [|d m] eqn:E.
  - apply (f_equal (@rev ascii)) in E. rewrite rev_involutive in E. discriminate E.
  - rewrite (drop_while_keep p d m Hl). rewrite <- E. apply rev_involutive.
Qed.

Lemma clean_item_parts (item : string) :
  clean_item item = true ->
  no_comma item = true
  /\ item <> ""%string
  /\ str_strip item = item.
Proof.
  unfold clean_item, no_comma, not_sep, str_strip. intro H.
  apply andb_true_iff in H as [H Hlast]. apply andb_true_iff in H as [Hc Hfirst].
  split; [exact Hc|]. split.
  - intros ->. discriminate Hfirst.
  - rewrite strip_chars_fixed.
    + apply string_of_list_ascii_of_string.
    + destruct (list_ascii_of_string item); [exact I|].
      apply negb_true_iff. exact Hfirst.
    + destruct (rev (list_ascii_of_string item)); [exact I|].
      apply negb_true_iff. exact Hlast.
Qed.

Lemma string_eqb_empty (s : string) :
  String.eqb s "" = match s with EmptyString => true | _ => false end.
Proof. destruct s; reflexivity. Qed.

Lemma strip_item_clean (piece : list ascii) :
  not_sep "," piece = true ->
  String.eqb (string_of_list_ascii (strip_chars is_space piece)) "" = false ->
  clean_item (string_of_list_ascii (strip_chars is_space piece)) = true.
Proof.
  intros Hc Hne. unfold clean_item.
  rewrite list_ascii_of_string_of_list_ascii.
  pose proof (strip_chars_ends is_space piece) as [Hh Hl].
  pose proof (strip_chars_forallb is_space _ piece Hc) as Hc'.
  unfold not_sep in Hc. rewrite Hc'.
  destruct (strip_chars is_space piece) as [|c m] eqn:E; [discriminate Hne|].
  rewrite Hh. cbn [negb andb].
  destruct (rev (c :: m)) as [|d m'] eqn:Er.
  - apply (f_equal (@rev ascii)) in Er. rewrite rev_involutive in Er. discriminate Er.
  - rewrite Hl. reflexivity.
Qed.

(** The items of a parsed list are clean. *)
Lemma parse_str_list_clean (value : string) :
  Forall (fun item => clean_item item = true) (_parse_str_list value).
Proof.
  unfold _parse_str_list. destruct (String.eqb value ""); [constructor|].
  unfold str_split.
  pose proof (split_on_pieces "," (list_ascii_of_string value)) as [_ Hf].
  induction Hf as [|piece pieces Hp _ IH]; [constructor|].
  cbn [map filter].
  destruct (String.eqb (str_strip (string_of_list_ascii piece)) "") eqn:E;
    cbn [negb]; [exact IH|].
  cbn [map]. constructor; [|exact IH].
  unfold str_strip in *. rewrite list_ascii_of_string_of_list_ascii in *.
  apply strip_item_clean; assumption.
Qed.

(** Every item [_parse_str_list] returns is a non-empty text without a
    comma and without a space at either end, whatever the variable
    holds: empty pieces and pieces of spaces are dropped. *)
Theorem parse_str_list_items_clean (value : string) :
  Forall (fun item => clean_item item = true) (_parse_str_list value).
Proof. exact (parse_str_list_clean value). Qed.

Lemma join_comma_nonempty (item : string) (rest : list string) :
  item <> ""%string -> String.eqb (join_comma (item :: rest)) "" = false.
Proof.
  intro H. rewrite string_eqb_empty.
  destruct rest; cbn [join_comma]; destruct item; cbn; congruence.
Qed.



End Splitting.

Section Integers.
Import ConfigPy.

Lemma int_body_digits (ds : list ascii) (after_digit : bool) :
  forallb is_digit ds = true ->
  ds <> [] \/ after_digit = true ->
  int_body after_digit ds = Some ds.
Proof.
  revert after_digit. induction ds as [|c ds IH]; intros after_digit Hd Hne.
  - destruct Hne as [?| ->]; [congruence|reflexivity].
  - cbn in *. apply andb_true_iff in Hd as [Hc Hds]. rewrite Hc.
    rewrite (IH true Hds) by (right; reflexivity). reflexivity.
Qed.

Lemma digit_not_blank (c : ascii) : is_digit c = true -> is_blank c = false.
Proof.
  unfold is_digit, is_blank. intro H. apply andb_true_iff in H as [H1 H2].
  apply N.leb_le in H1, H2.
  destruct (N.eqb_spec (N_of_ascii c) 32); [lia|].
  destruct (N.leb_spec 9 (N_of_ascii c)); [|reflexivity].
  destruct (N.leb_spec (N_of_ascii c) 13); [lia|reflexivity].
Qed.

Lemma digit_not_space (c : ascii) : is_digit c = true -> is_space c = false.
Proof.
  unfold is_digit, is_space. intro H. apply andb_true_iff in H as [H1 H2].
  apply N.leb_le in H1, H2. apply orb_false_iff. split; apply andb_false_iff.
  - right. apply N.leb_gt. lia.
  - right. apply N.leb_gt. lia.
Qed.

Lemma digit_not_comma (c : ascii) :
  is_digit c = true -> negb (Ascii.eqb c ",") = true.
Proof.
  intro H. destruct (Ascii.eqb_spec c ","); [subst; discriminate H|reflexivity].
Qed.

Lemma digit_not_sign (c : ascii) (l : list ascii) :
  is_digit c = true -> split_sign (c :: l) = (false, c :: l).
Proof.
  intro H. unfold split_sign.
  destruct (Ascii.eqb_spec c "-"); [subst; discriminate H|].
  destruct (Ascii.eqb_spec c "+"); [subst; discriminate H|].
  destruct c as [[] [] [] [] [] [] [] []]; try reflexivity; congruence.
Qed.

(** The decimal numeral of a natural number: digits, at least one. *)
Lemma decimal_numeral (n : Z) :
  exists c ds,
    list_ascii_of_string (decimal n) = c :: ds
    /\ forallb is_digit (c :: ds) = true
    /\ NilEmpty.uint_of_string (decimal n) = Some (N.to_uint (Z.to_N n)).
Proof.
  unfold decimal.
  assert (Hnz : N.to_uint (Z.to_N n) <> Decimal.Nil).
  { destruct (Z.to_N n) as [|p]; [discriminate|].
    apply DecimalPos.Unsigned.to_uint_nonnil. }
  destruct (N.to_uint (Z.to_N n)) as [|u|u|u|u|u|u|u|u|u|u] eqn:E;
    [congruence|..];
    (pose proof (string_of_uint_digits (N.to_uint (Z.to_N n))) as Hd;
     rewrite E in Hd;
     change (NilZero.string_of_uint ?x) with (NilEmpty.string_of_uint x);
     rewrite NilEmpty.usu;
     cbn [NilEmpty.string_of_uint list_ascii_of_string] in *;
     eexists; eexists; split; [reflexivity|]; split; [exact Hd|reflexivity]).
Qed.

Lemma last_is_digit (c : ascii) (ds : list ascii) :
  forallb is_digit (c :: ds) = true ->
  match rev (c :: ds) with
  | [] => True
  | d :: _ => is_digit d = true
  end.
Proof.
  intro H. rewrite <- forallb_rev in H.
  destruct (rev (c :: ds)); [exact I|].
  cbn in H. apply andb_true_iff in H as [H _]. exact H.
Qed.

(** [int] reads back what [str] writes. *)
Lemma py_int_str_of_int (n : Z) : py_int (str_of_int n) = Ok n.
Proof.
  unfold str_of_int.
  destruct (Z.ltb_spec n 0) as [Hneg|Hpos].
  - destruct (decimal_numeral (- n)) as (c & ds & El & Hd & Hu).
    unfold py_int. cbn [list_ascii_of_string append]. rewrite El.
    rewrite strip_chars_fixed.
    + cbn [split_sign]. rewrite int_body_digits by (auto; left; discriminate).
      rewrite <- El, string_of_list_ascii_of_string, Hu.
      rewrite DecimalN.Unsigned.of_to. f_equal. lia.
    + reflexivity.
    + pose proof (last_is_digit c ds Hd) as Hl.
      change ("-"%char :: c :: ds) with (["-"%char] ++ (c :: ds)).
      rewrite rev_app_distr.
      destruct (rev (c :: ds)) as [|d m]; cbn; [reflexivity|].
      apply digit_not_blank. exact Hl.
  - destruct (decimal_numeral n) as (c & ds & El & Hd & Hu).
    unfold py_int. rewrite El.
    rewrite strip_chars_fixed.
    + rewrite digit_not_sign
        by (cbn in Hd; apply andb_true_iff in Hd as [Hc _]; exact Hc).
      rewrite int_body_digits by (auto; left; discriminate).
      rewrite <- El, string_of_list_ascii_of_string, Hu.
      rewrite DecimalN.Unsigned.of_to. f_equal. lia.
    + apply digit_not_blank. cbn in Hd. apply andb_true_iff in Hd as [Hc _]. exact Hc.
    + pose proof (last_is_digit c ds Hd) as Hl.
      destruct (rev (c :: ds)); [exact I|]. apply digit_not_blank. exact Hl.
Qed.

Lemma str_of_int_clean (n : Z) : clean_item (str_of_int n) = true.
Proof.
  unfold str_of_int, clean_item.
  destruct (Z.ltb_spec n 0) as [Hneg|Hpos].
  - destruct (decimal_numeral (- n)) as (c & ds & El & Hd & _).
    cbn [list_ascii_of_string append]. rewrite El.
    pose proof (last_is_digit c ds Hd) as Hl.
    pose proof (forallb_impl is_digit _ (c :: ds) digit_not_comma Hd) as Hc.
    change (forallb (fun c0 => negb (c0 =? ",")%char) ("-"%char :: c :: ds))
      with (forallb (fun c0 => negb (c0 =? ",")%char) (c :: ds)).
    rewrite Hc.
    change (negb (is_space "-")) with true. cbn [andb].
    change ("-"%char :: c :: ds) with (["-"%char] ++ (c :: ds)).
    rewrite rev_app_distr.
    destruct (rev (c :: ds)) as [|d m] eqn:E.
    + apply (f_equal (@rev ascii)) in E. rewrite rev_involutive in E. discriminate E.
    + cbn. rewrite (digit_not_space d Hl). reflexivity.
  - destruct (decimal_numeral n) as (c & ds & El & Hd & _).
    rewrite El. pose proof (last_is_digit c ds Hd) as Hl.
    rewrite (forallb_impl is_digit _ (c :: ds) digit_not_comma Hd).
    cbn in Hd. apply andb_true_iff in Hd as [Hc _].
    rewrite (digit_not_space c Hc).
    destruct (rev (c :: ds)) as [|d m] eqn:E.
    + apply (f_equal (@rev ascii)) in E. rewrite rev_involutive in E. discriminate E.
    + rewrite (digit_not_space d Hl). reflexivity.
Qed.

(** A list of integers written as [",".join(str(n) for n in ns)] is read
    back by [_parse_int_list] as the same list, negative numbers
    included; the empty list is written as the empty text. *)
Theorem parse_int_list_join_round_trip (ns : list Z) :
  _parse_int_list (join_comma (map str_of_int ns)) = Ok ns.
Proof.
  destruct ns as [|n ns]; [reflexivity|].
  assert (Hall : Forall (fun i => no_comma i = true /\ i <> ""%string
                                  /\ str_strip i = i)
                   (map str_of_int (n :: ns))).
  { apply Forall_forall. intros i Hi. apply clean_item_parts.
    apply in_map_iff in Hi as (m & <- & _). apply str_of_int_clean. }
  unfold _parse_int_list. cbn [map] in *.
  rewrite join_comma_nonempty by (inversion Hall; tauto).
  change (str_of_int n :: map str_of_int ns) with (map str_of_int (n :: ns)).
  rewrite str_split_join.
  - clear Hall. induction (n :: ns) as [|m l IH]; [reflexivity|].
    cbn [map parse_int_items].
    destruct (clean_item_parts _ (str_of_int_clean m)) as (_ & Hn & Hs).
    rewrite Hs, string_eqb_empty.
    destruct (str_of_int m) eqn:E; [congruence|]. rewrite <- E.
    rewrite py_int_str_of_int. cbn [rbind]. rewrite IH. reflexivity.
  - discriminate.
  - apply forallb_forall. intros i Hi.
    rewrite Forall_forall in Hall. apply (Hall i Hi).
Qed.

End Integers.

Section Loading.
Import ConfigPy.
Context {float_str : FloatOfStr}.

Lemma get_env_required (env : environ) (name : string) (required : bool)
    (default : option string) (v : string) :
  _get_env env name required default = Ok v ->
  required = true -> v <> ""%string.
Proof.
  unfold _get_env. intros H ->. cbn [andb] in H.
  destruct (getenv env name default) as [s|]; [|discriminate H].
  destruct (String.eqb_spec s ""); [discriminate H|]. congruence.
Qed.

Lemma get_env_value (env : environ) (name : string) (required : bool)
    (default v : string) :
  _get_env env name required (Some default) = Ok v ->
  v = getenv_or env name default.
Proof.
  unfold _get_env, getenv, getenv_or.
  destruct (env name); destruct (required && _); congruence.
Qed.

Lemma get_env_raises (env : environ) (name : string) (required : bool)
    (default : option string) (e : exn) :
  _get_env env name required default = Raise e -> e = ValueError.
Proof.
  unfold _get_env. destruct (required && _); congruence.
Qed.

Lemma py_int_raises (s : string) (e : exn) :
  py_int s = Raise e -> e = ValueError.
Proof.
  unfold py_int. destruct (split_sign _) as [neg l].
  destruct (int_body false l); [|congruence].
  destruct (NilEmpty.uint_of_string _); congruence.
Qed.

Lemma parse_int_list_raises (value : string) (e : exn) :
  _parse_int_list value = Raise e -> e = ValueError.
Proof.
  unfold _parse_int_list. destruct (String.eqb value ""); [discriminate|].
  induction (str_split "," value) as [|item items IH]; cbn [parse_int_items];
    [discriminate|].
  destruct (String.eqb (str_strip item) ""); [exact IH|].
  destruct (py_int (str_strip item)) eqn:E; cbn [rbind].
  - destruct (parse_int_items items); cbn [rbind]; [discriminate|].
    intros [= <-]. apply IH. reflexivity.
  - intros [= <-]. exact (py_int_raises _ _ E).
Qed.

Ltac load_steps H :=
  repeat match type of H with
         | context [rbind ?m _] =>
             let E := fresh "E" in
             destruct m eqn:E; cbn [rbind] in H
         end.

(** What a loaded configuration is known to satisfy. *)
Lemma load_config_ok (env : environ) (c : Config) :
  load_config env = Ok c ->
  api_hash c <> ""%string
  /\ discovery_mode c = env_flag env "DISCOVERY_MODE"
  /\ forward_to_saved c = env_flag env "FORWARD_TO_SAVED"
  /\ (discovery_mode c = false -> group_ids c <> [])
  /\ (env_flag env "ENABLE_TRADING" = true ->
      private_key c <> ""%string /\ rpc_url c <> ""%string
      /\ router_address c <> ""%string /\ weth_address c <> ""%string)
  /\ static_tokens c = _parse_str_list (getenv_or env "STATIC_TOKENS" "")
  /\ output_json_path c = getenv_or env "OUTPUT_JSON_PATH" "token_results.json"
  /\ history_json_path c = getenv_or env "HISTORY_JSON_PATH" "token_history.json"
  /\ py_int (getenv_or env "PRICE_CHECK_INTERVAL_SEC" "60")
     = Ok (price_check_interval_sec c)
  /\ _get_env env "API_HASH" true None = Ok (api_hash c)
  /\ (exists t, _get_env env "API_ID" true None = Ok t)
  /\ _parse_int_list (getenv_or env "GROUP_IDS" "") = Ok (group_ids c).
Proof.
  intro H. unfold load_config in H. load_steps H; try discriminate H.
  match type of H with
  | (if ?b then _ else _) = _ => destruct b eqn:Eg; [discriminate H|]
  end.
  injection H as <-. cbn.
  split; [eapply get_env_required; [eassumption|reflexivity]|].
  split; [reflexivity|]. split; [reflexivity|].
  split.
  { intros Hd. rewrite Hd in Eg. cbn in Eg. intros ->. discriminate Eg. }
  split.
  { intros Ht. rewrite Ht in *.
    repeat split; eapply get_env_required; try eassumption; reflexivity. }
  repeat (split; [reflexivity|]).
  split; [eexists; reflexivity|].
  match goal with
  | E : _get_env env "GROUP_IDS" _ _ = Ok ?g |- _ =>
      rewrite <- (get_env_value _ _ _ _ _ E)
  end.
  assumption.
Qed.

Lemma load_config_raises (env : environ) (e : exn) :
  load_config env = Raise e -> e = ValueError.
Proof.
  intro H. unfold load_config in H. load_steps H;
    try (injection H as <-;
         first [ eapply get_env_raises; eassumption
               | eapply py_int_raises; eassumption
               | eapply parse_int_list_raises; eassumption ]).
  - destruct (negb _ && _); congruence.
  - destruct (float_of_str _); congruence.
Qed.

(** A configuration that [load_config] returns has an API hash; outside
    discovery mode it names at least one group; with trading enabled the
    key, the RPC URL and both addresses are set; its static tokens are
    clean items; and the two files and the checking interval that the
    bot uses have their defaults when their variables are not set. *)
Theorem load_config_guarantees (env : environ) (c : Config) :
  load_config env = Ok c ->
  api_hash c <> ""%string
  /\ (discovery_mode c = false -> group_ids c <> [])
  /\ (env_flag env "ENABLE_TRADING" = true ->
      private_key c <> ""%string /\ rpc_url c <> ""%string
      /\ router_address c <> ""%string /\ weth_address c <> ""%string)
  /\ Forall (fun item => clean_item item = true) (static_tokens c)
  /\ (env "OUTPUT_JSON_PATH" = None ->
      output_json_path c = "token_results.json"%string)
  /\ (env "HISTORY_JSON_PATH" = None ->
      history_json_path c = "token_history.json"%string)
  /\ (env "PRICE_CHECK_INTERVAL_SEC" = None ->
      price_check_interval_sec c = 60%Z).
Proof.
  intro H.
  destruct (load_config_ok env c H)
    as (Hh & _ & _ & Hg & Ht & Hs & Ho & Hy & Hp & _).
  split; [exact Hh|]. split; [exact Hg|]. split; [exact Ht|].
  split; [rewrite Hs; apply parse_str_list_clean|].
  unfold getenv_or in Ho, Hy, Hp.
  split; [intro E; rewrite E in Ho; exact Ho|].
  split; [intro E; rewrite E in Hy; exact Hy|].
  intro E. rewrite E in Hp.
  assert (P : py_int "60" = Ok 60%Z) by reflexivity.
  rewrite P in Hp. injection Hp as <-. reflexivity.
Qed.

(** [load_config] raises nothing but [ValueError], and it does raise it
    when [API_ID] or [API_HASH] is not set, when [API_HASH] is empty,
    and, outside discovery mode, when [GROUP_IDS] holds no group id (not
    set, empty, or commas and spaces only). *)
Theorem load_config_rejects (env : environ) :
  (forall e, load_config env = Raise e -> e = ValueError)
  /\ (env "API_ID" = None
      \/ env "API_HASH" = None
      \/ env "API_HASH" = Some ""%string
      \/ (env_flag env "DISCOVERY_MODE" = false
          /\ _parse_int_list (getenv_or env "GROUP_IDS" "") = Ok []) ->
      load_config env = Raise ValueError).
Proof.
  split; [apply load_config_raises|].
  intro Hbad. destruct (load_config env) as [c|e] eqn:E.
  - exfalso.
    destruct (load_config_ok env c E)
      as (Hh & Hd & _ & Hg & _ & _ & _ & _ & _ & Hhash & (t & Hid) & Hgroups).
    destruct Hbad as [Hbad|[Hbad|[Hbad|[Hdisc Hnone]]]].
    + unfold _get_env, getenv in Hid. rewrite Hbad in Hid. discriminate Hid.
    + unfold _get_env, getenv in Hhash. rewrite Hbad in Hhash. discriminate Hhash.
    + unfold _get_env, getenv in Hhash. rewrite Hbad in Hhash. discriminate Hhash.
    + rewrite Hdisc in Hd. rewrite Hnone in Hgroups.
      apply (Hg Hd). congruence.
  - f_equal. exact (load_config_raises env e E).
Qed.

End Loading.

Lemma load_config_guarantees_witness :
  ConfigPy.api_hash sample_config <> ""%string
  /\ (ConfigPy.discovery_mode sample_config = false ->
      ConfigPy.group_ids sample_config <> [])
  /\ (ConfigPy.env_flag sample_environ "ENABLE_TRADING" = true ->
      ConfigPy.private_key sample_config <> ""%string
      /\ ConfigPy.rpc_url sample_config <> ""%string
      /\ ConfigPy.router_address sample_config <> ""%string
      /\ ConfigPy.weth_address sample_config <> ""%string)
  /\ Forall (fun item => clean_item item = true)
       (ConfigPy.static_tokens sample_config)
  /\ (sample_environ "OUTPUT_JSON_PATH" = None ->
      ConfigPy.output_json_path sample_config = "token_results.json"%string)
  /\ (sample_environ "HISTORY_JSON_PATH" = None ->
      ConfigPy.history_json_path sample_config = "token_history.json"%string)
  /\ (sample_environ "PRICE_CHECK_INTERVAL_SEC" = None ->
      ConfigPy.price_check_interval_sec sample_config = 60%Z).
Proof.
  exact (load_config_guarantees sample_environ sample_config eq_refl).
Defined.
